(** * The to-do page of [src/app/page.tsx]

    A shallow embedding of the single React component [Page]: the [Todo]
    record, the component state, the event handlers ([openAdd], [openEdit],
    [create], [update], [remove], [toggle]), the derived list [filtered] and
    the two storage effects (load on mount, persist on change).

    Conventions of the embedding.
    - A JavaScript string is a Rocq [string]; every [ascii] stands for one
      UTF-16 code unit in the range U+0000..U+00FF.  [trim], [toLowerCase] and
      [includes] are the ECMAScript functions restricted to that range.
    - A JavaScript number that holds a time stamp is a [Z]; [Date.now()] is an
      input of the handler that reads it (argument [now]; [toggle] reads the
      clock once for every task it replaces and takes one value per index).
    - [confirm(...)] is an input of [remove] (argument [confirmed]).
    - A handler is a function from the state it closes over to the state after
      its [set...] calls have been applied. *)

From Stdlib Require Import String Ascii List ZArith Bool Lia Arith.
From Stdlib Require Import DecimalString DecimalZ DecimalPos DecimalFacts.
From Stdlib Require Import Permutation.
Import ListNotations.

Local Open Scope string_scope.
Local Open Scope Z_scope.

(** ** Strings *)

(** ECMAScript WhiteSpace and LineTerminator code points below U+0100:
    TAB, LF, VT, FF, CR, SPACE and NO-BREAK SPACE. *)
Definition is_white_space (c : ascii) : bool :=
  let n := N_of_ascii c in
  (N.eqb n 9 || N.eqb n 10 || N.eqb n 11 || N.eqb n 12 || N.eqb n 13
   || N.eqb n 32 || N.eqb n 160)%bool.

Fixpoint trimStart (s : string) : string :=
  match s with
  | EmptyString => EmptyString
  | String c s' => if is_white_space c then trimStart s' else s
  end.

Fixpoint trimEnd (s : string) : string :=
  match s with
  | EmptyString => EmptyString
  | String c s' =>
      match trimEnd s' with
      | EmptyString => if is_white_space c then EmptyString else String c EmptyString
      | r => String c r
      end
  end.

(** [String.prototype.trim]. *)
Definition trim (s : string) : string := trimEnd (trimStart s).

(** Lower-case mapping of one code unit below U+0100: A-Z and the Latin-1
    capitals U+00C0..U+00DE (U+00D7, the multiplication sign, excepted) move
    up by 32; every other code unit is its own lower case. *)
Definition lower_char (c : ascii) : ascii :=
  let n := N_of_ascii c in
  if ((N.leb 65 n && N.leb n 90)
      || (N.leb 192 n && N.leb n 222 && negb (N.eqb n 215)))%bool
  then ascii_of_N (n + 32)
  else c.

(** [String.prototype.toLowerCase]. *)
Fixpoint toLowerCase (s : string) : string :=
  match s with
  | EmptyString => EmptyString
  | String c s' => String (lower_char c) (toLowerCase s')
  end.

(** [s.includes(q)]: [q] occurs in [s] as a contiguous run. *)
Fixpoint includes (s q : string) : bool :=
  (String.prefix q s
   || match s with
      | EmptyString => false
      | String _ s' => includes s' q
      end)%bool.

(** JavaScript truthiness of a string: only the empty string is falsy. *)
Definition truthy (s : string) : bool :=
  match s with
  | EmptyString => false
  | String _ _ => true
  end.

(** [String(n)] for an integral number [n]: its decimal digits, with a
    leading minus sign when negative. *)
Definition String_of_number (n : Z) : string :=
  NilEmpty.string_of_int (Z.to_int n).

(** ** The [Todo] record *)

Module Todo.
Record t : Type := mk
  { id : string;
    title : string;
    description : option string;   (* [description?: string] *)
    completed : bool;
    createdAt : Z;
    updatedAt : Z }.
End Todo.
Abbreviation Todo := Todo.t.

(** [d || ''] for an optional string. *)
Definition or_empty (d : option string) : string :=
  match d with
  | Some s => s
  | None => EmptyString
  end.

(** ** Component state *)

Inductive Filter : Type := F_todos | F_completed.

Record State : Type := mkState
  { todos : list Todo;
    search : string;
    filter : Filter;
    editing : option Todo;
    title : string;
    description : string;
    modalOpen : bool }.

(** The [useState] initial values. *)
Definition initial : State :=
  {| todos := []; search := ""; filter := F_todos; editing := None;
     title := ""; description := ""; modalOpen := false |}.

(** ** Event handlers *)

Definition openAdd (st : State) : State :=
  {| todos := todos st; search := search st; filter := filter st;
     editing := None; title := ""; description := ""; modalOpen := true |}.

Definition openEdit (t : Todo) (st : State) : State :=
  {| todos := todos st; search := search st; filter := filter st;
     editing := Some t; title := Todo.title t;
     description := or_empty (Todo.description t); modalOpen := true |}.

(** The object literal built by [create]. *)
Definition new_todo (now : Z) (trimmed desc : string) : Todo :=
  {| Todo.id := String_of_number now;
     Todo.title := trimmed;
     Todo.description := Some (trim desc);
     Todo.completed := false;
     Todo.createdAt := now;
     Todo.updatedAt := now |}.

Definition create (now : Z) (st : State) : State :=
  let trimmed := trim (title st) in
  if negb (truthy trimmed) then st
  else
    let todo := new_todo now trimmed (description st) in
    {| todos := todo :: todos st; search := search st; filter := filter st;
       editing := editing st; title := ""; description := "";
       modalOpen := false |}.

(** [{ ...editing, title: trimmed, description: description.trim(),
      updatedAt: Date.now() }]. *)
Definition updated_todo (now : Z) (e : Todo) (trimmed desc : string) : Todo :=
  {| Todo.id := Todo.id e;
     Todo.title := trimmed;
     Todo.description := Some (trim desc);
     Todo.completed := Todo.completed e;
     Todo.createdAt := Todo.createdAt e;
     Todo.updatedAt := now |}.

Definition update (now : Z) (st : State) : State :=
  match editing st with
  | None => st
  | Some e =>
      let trimmed := trim (title st) in
      if negb (truthy trimmed) then st
      else
        let updated := updated_todo now e trimmed (description st) in
        {| todos := map (fun x => if String.eqb (Todo.id x) (Todo.id updated)
                                  then updated else x) (todos st);
           search := search st; filter := filter st;
           editing := None; title := ""; description := "";
           modalOpen := false |}
  end.

Definition remove (confirmed : bool) (id : string) (st : State) : State :=
  if negb confirmed then st
  else
    {| todos := List.filter (fun t => negb (String.eqb (Todo.id t) id)) (todos st);
       search := search st; filter := filter st; editing := editing st;
       title := title st; description := description st;
       modalOpen := modalOpen st |}.

(** [{ ...t, completed: !t.completed, updatedAt: Date.now() }]. *)
Definition toggled_todo (now : Z) (t : Todo) : Todo :=
  {| Todo.id := Todo.id t;
     Todo.title := Todo.title t;
     Todo.description := Todo.description t;
     Todo.completed := negb (Todo.completed t);
     Todo.createdAt := Todo.createdAt t;
     Todo.updatedAt := now |}.

(** [s.map((t) => (t.id === id ? { ...t, completed: !t.completed,
    updatedAt: Date.now() } : t))] from index [k] on.  The callback reads the
    clock for every task it replaces: [now k] is the value [Date.now()]
    returns while the element at index [k] is visited. *)
Fixpoint toggle_from (k : nat) (now : nat -> Z) (id : string) (l : list Todo)
  : list Todo :=
  match l with
  | [] => []
  | t :: l' =>
      (if String.eqb (Todo.id t) id then toggled_todo (now k) t else t)
        :: toggle_from (S k) now id l'
  end.

Definition toggle (now : nat -> Z) (id : string) (st : State) : State :=
  {| todos := toggle_from 0 now id (todos st);
     search := search st; filter := filter st; editing := editing st;
     title := title st; description := description st;
     modalOpen := modalOpen st |}.

(** The [onChange] handlers of the inputs and the tab buttons. *)
Definition setSearch (s : string) (st : State) : State :=
  {| todos := todos st; search := s; filter := filter st;
     editing := editing st; title := title st;
     description := description st; modalOpen := modalOpen st |}.

Definition setFilter (f : Filter) (st : State) : State :=
  {| todos := todos st; search := search st; filter := f;
     editing := editing st; title := title st;
     description := description st; modalOpen := modalOpen st |}.

Definition setTitle (s : string) (st : State) : State :=
  {| todos := todos st; search := search st; filter := filter st;
     editing := editing st; title := s;
     description := description st; modalOpen := modalOpen st |}.

Definition setDescription (s : string) (st : State) : State :=
  {| todos := todos st; search := search st; filter := filter st;
     editing := editing st; title := title st;
     description := s; modalOpen := modalOpen st |}.

(** Click on the backdrop of the modal. *)
Definition backdrop (st : State) : State :=
  {| todos := todos st; search := search st; filter := filter st;
     editing := None; title := title st;
     description := description st; modalOpen := false |}.

(** The Cancel button. *)
Definition cancel (st : State) : State :=
  {| todos := todos st; search := search st; filter := filter st;
     editing := None; title := ""; description := ""; modalOpen := false |}.

(** The primary button of the modal: [onClick={editing ? update : create}]. *)
Definition submit (now : Z) (st : State) : State :=
  match editing st with
  | Some _ => update now st
  | None => create now st
  end.

(** ** The derived list *)

(** The predicate passed to [todos.filter] inside [useMemo]; [q] is
    [search.trim().toLowerCase()]. *)
Definition is_todos (f : Filter) : bool :=
  match f with F_todos => true | F_completed => false end.

Definition is_completed (f : Filter) : bool :=
  match f with F_todos => false | F_completed => true end.

Definition shown (f : Filter) (q : string) (t : Todo) : bool :=
  if (is_todos f && Todo.completed t)%bool then false
  else if (is_completed f && negb (Todo.completed t))%bool then false
  else if negb (truthy q) then true
  else includes
         (toLowerCase (Todo.title t ++ " " ++ or_empty (Todo.description t)))
         q.

Definition filtered (st : State) : list Todo :=
  let q := toLowerCase (trim (search st)) in
  List.filter (shown (filter st) q) (todos st).

(** The view as the specification words it: the tasks whose [completed]
    flag matches the status filter and whose title, a space and the
    description, taken together, contain the search text when case is
    ignored; collection order is kept. *)
Definition status_matches (f : Filter) (t : Todo) : bool :=
  match f with
  | F_todos => negb (Todo.completed t)
  | F_completed => Todo.completed t
  end.

Definition contains_ignoring_case (hay needle : string) : bool :=
  includes (toLowerCase hay) (toLowerCase needle).

Definition view_as_specified (f : Filter) (text : string) (l : list Todo)
  : list Todo :=
  List.filter
    (fun t => (status_matches f t
               && contains_ignoring_case
                    (Todo.title t ++ " " ++ or_empty (Todo.description t))
                    text)%bool)
    l.

(** ** Runs of the component *)

Inductive Event : Type :=
| EvOpenAdd
| EvOpenEdit (t : Todo)
| EvSetTitle (s : string)
| EvSetDescription (s : string)
| EvSetSearch (s : string)
| EvSetFilter (f : Filter)
| EvCreate (now : Z)
| EvUpdate (now : Z)
| EvRemove (confirmed : bool) (id : string)
| EvToggle (now : nat -> Z) (id : string)
| EvBackdrop
| EvCancel.

Definition step (st : State) (ev : Event) : State :=
  match ev with
  | EvOpenAdd => openAdd st
  | EvOpenEdit t => openEdit t st
  | EvSetTitle s => setTitle s st
  | EvSetDescription s => setDescription s st
  | EvSetSearch s => setSearch s st
  | EvSetFilter f => setFilter f st
  | EvCreate now => create now st
  | EvUpdate now => update now st
  | EvRemove confirmed id => remove confirmed id st
  | EvToggle now id => toggle now id st
  | EvBackdrop => backdrop st
  | EvCancel => cancel st
  end.

Definition run (evs : list Event) (st : State) : State :=
  fold_left step evs st.

(** The values that [Date.now()] returns to [create] along a run from [st];
    [create] reads the clock only after it has accepted the title. *)
Fixpoint create_times (evs : list Event) (st : State) : list Z :=
  match evs with
  | [] => []
  | ev :: evs' =>
      match ev with
      | EvCreate now =>
          if truthy (trim (title st))
          then now :: create_times evs' (step st ev)
          else create_times evs' (step st ev)
      | _ => create_times evs' (step st ev)
      end
  end.

(** A clock that shows [n] for the whole pass of [toggle]. *)
Definition at_time (n : Z) : nat -> Z := fun _ => n.

Definition ids (l : list Todo) : list string := map Todo.id l.

(** ** JSON text

    [JSON.stringify] and [JSON.parse] on the values this page stores: strings
    of code units below U+0100, integral numbers, booleans, [null], arrays and
    objects.  An object is kept as the list of its members in source order;
    reading a property takes the last member of that name, as [JSON.parse]
    does for a repeated key. *)

#[local] Unset Elimination Schemes.
Inductive json : Type :=
| JNull
| JBool (b : bool)
| JNumber (n : Z)
| JString (s : string)
| JArray (l : list json)
| JObject (m : list (string * json)).
#[local] Set Elimination Schemes.

Definition dquote : ascii := "034"%char.
Definition backslash : ascii := "092"%char.

Definition hex_digit (n : N) : ascii :=
  if N.ltb n 10 then ascii_of_N (48 + n) else ascii_of_N (87 + n).

(** QuoteJSONString, one code unit. *)
Definition escape_char (c : ascii) : string :=
  let n := N_of_ascii c in
  if N.eqb n 34 then String backslash (String dquote EmptyString)
  else if N.eqb n 92 then String backslash (String backslash EmptyString)
  else if N.eqb n 8 then String backslash "b"
  else if N.eqb n 9 then String backslash "t"
  else if N.eqb n 10 then String backslash "n"
  else if N.eqb n 12 then String backslash "f"
  else if N.eqb n 13 then String backslash "r"
  else if N.ltb n 32 then
    String backslash
      (String "u" (String "0" (String "0"
         (String (hex_digit (N.div n 16))
            (String (hex_digit (N.modulo n 16)) EmptyString)))))
  else String c EmptyString.

Fixpoint escape (s : string) : string :=
  match s with
  | EmptyString => EmptyString
  | String c s' => escape_char c ++ escape s'
  end.

Definition quote (s : string) : string :=
  String dquote (escape s ++ String dquote EmptyString).

(** [JSON.stringify(v)] with no indentation. *)
Fixpoint stringify (j : json) : string :=
  match j with
  | JNull => "null"
  | JBool true => "true"
  | JBool false => "false"
  | JNumber n => String_of_number n
  | JString s => quote s
  | JArray l => "[" ++ String.concat "," (map stringify l) ++ "]"
  | JObject m =>
      "{" ++ String.concat ","
               (map (fun kv : string * json =>
                       let (k, v) := kv in quote k ++ ":" ++ stringify v) m)
          ++ "}"
  end.

(** JSON insignificant white space: TAB, LF, CR and SPACE. *)
Definition is_json_space (c : ascii) : bool :=
  let n := N_of_ascii c in
  (N.eqb n 9 || N.eqb n 10 || N.eqb n 13 || N.eqb n 32)%bool.

Fixpoint skip_ws (s : string) : string :=
  match s with
  | String c s' => if is_json_space c then skip_ws s' else s
  | EmptyString => EmptyString
  end.

Definition is_digit (c : ascii) : bool :=
  let n := N_of_ascii c in (N.leb 48 n && N.leb n 57)%bool.

Fixpoint span_digits (s : string) : string * string :=
  match s with
  | String c s' =>
      if is_digit c
      then let (d, r) := span_digits s' in (String c d, r)
      else (EmptyString, s)
  | EmptyString => (EmptyString, EmptyString)
  end.

(** A fraction or an exponent follows the integer part. *)
Definition starts_fraction_or_exponent (s : string) : bool :=
  match s with
  | String c _ =>
      (Ascii.eqb c "." || Ascii.eqb c "e" || Ascii.eqb c "E")%bool
  | EmptyString => false
  end.

(** The digits of a JSON number after its optional sign.  A literal with a
    superfluous leading zero is a syntax error.  A literal with a fraction or
    an exponent is read by [JSON.parse] but has no value among the integers of
    this model; [parse_digits] answers [None] for it, which says nothing of
    the source, and no statement of this file parses such a text:
    [stringify] never writes one. *)
Definition parse_digits (negative : bool) (s : string) : option (json * string) :=
  let (ds, rest) := span_digits s in
  match ds with
  | EmptyString => None
  | String first more =>
      if (Ascii.eqb first "0" && truthy more)%bool then None
      else if starts_fraction_or_exponent rest then None
      else
        match NilEmpty.uint_of_string ds with
        | Some u =>
            Some (JNumber (Z.of_int (if negative then Decimal.Neg u else Decimal.Pos u)),
                  rest)
        | None => None
        end
  end.

Definition parse_number (s : string) : option (json * string) :=
  match s with
  | String c s' =>
      if Ascii.eqb c "-" then parse_digits true s' else parse_digits false s
  | EmptyString => None
  end.

Definition hex_value (c : ascii) : option N :=
  let n := N_of_ascii c in
  if (N.leb 48 n && N.leb n 57)%bool then Some (n - 48)%N
  else if (N.leb 97 n && N.leb n 102)%bool then Some (n - 87)%N
  else if (N.leb 65 n && N.leb n 70)%bool then Some (n - 55)%N
  else None.

(** The code unit written [\uXXXX]; code units from U+0100 on are outside
    the strings of this model. *)
Definition unicode_escape (h1 h2 h3 h4 : ascii) : option ascii :=
  match hex_value h1, hex_value h2, hex_value h3, hex_value h4 with
  | Some a, Some b, Some c, Some d =>
      if (N.eqb a 0 && N.eqb b 0)%bool then Some (ascii_of_N (16 * c + d))
      else None
  | _, _, _, _ => None
  end.

Definition simple_escape (e : ascii) : option ascii :=
  let n := N_of_ascii e in
  if N.eqb n 34 then Some dquote
  else if N.eqb n 92 then Some backslash
  else if N.eqb n 47 then Some "/"%char
  else if N.eqb n 98 then Some "008"%char
  else if N.eqb n 102 then Some "012"%char
  else if N.eqb n 110 then Some "010"%char
  else if N.eqb n 114 then Some "013"%char
  else if N.eqb n 116 then Some "009"%char
  else None.

Definition cons_char (c : ascii) (r : option (string * string))
  : option (string * string) :=
  match r with
  | Some (s, rest) => Some (String c s, rest)
  | None => None
  end.

(** The characters of a string literal after its opening quote, up to and
    including the closing quote. *)
Fixpoint parse_string_body (s : string) : option (string * string) :=
  match s with
  | EmptyString => None
  | String c rest =>
      if Ascii.eqb c dquote then Some (EmptyString, rest)
      else if Ascii.eqb c backslash then
        match rest with
        | String e rest1 =>
            if Ascii.eqb e "u" then
              match rest1 with
              | String h1 (String h2 (String h3 (String h4 rest2))) =>
                  match unicode_escape h1 h2 h3 h4 with
                  | Some u => cons_char u (parse_string_body rest2)
                  | None => None
                  end
              | _ => None
              end
            else
              match simple_escape e with
              | Some u => cons_char u (parse_string_body rest1)
              | None => None
              end
        | EmptyString => None
        end
      else if N.ltb (N_of_ascii c) 32 then None
      else cons_char c (parse_string_body rest)
  end.

(** The text after the literal [lit], when the text starts with it. *)
Fixpoint strip_prefix (lit s : string) : option string :=
  match lit, s with
  | EmptyString, _ => Some s
  | String a lit', String b s' =>
      if Ascii.eqb a b then strip_prefix lit' s' else None
  | String _ _, EmptyString => None
  end.

Definition expect (lit : string) (v : json) (s : string) : option (json * string) :=
  match strip_prefix lit s with
  | Some rest => Some (v, rest)
  | None => None
  end.

(** Recursive descent over the text; [fuel] bounds the depth of the descent.
    [JSON_parse] hands over more fuel than the text has characters, which is
    enough for every text that [stringify] writes. *)
Fixpoint parse_value (fuel : nat) (s : string) : option (json * string) :=
  match fuel with
  | O => None
  | S fuel' =>
      match skip_ws s with
      | EmptyString => None
      | String c rest as s1 =>
          if Ascii.eqb c "n" then expect "null" JNull s1
          else if Ascii.eqb c "t" then expect "true" (JBool true) s1
          else if Ascii.eqb c "f" then expect "false" (JBool false) s1
          else if Ascii.eqb c dquote then
            match parse_string_body rest with
            | Some (str, rest1) => Some (JString str, rest1)
            | None => None
            end
          else if Ascii.eqb c "[" then
            match skip_ws rest with
            | String c1 rest1 as s2 =>
                if Ascii.eqb c1 "]" then Some (JArray [], rest1)
                else
                  match parse_elements fuel' s2 with
                  | Some (l, rest2) => Some (JArray l, rest2)
                  | None => None
                  end
            | EmptyString => None
            end
          else if Ascii.eqb c "{" then
            match skip_ws rest with
            | String c1 rest1 as s2 =>
                if Ascii.eqb c1 "}" then Some (JObject [], rest1)
                else
                  match parse_members fuel' s2 with
                  | Some (m, rest2) => Some (JObject m, rest2)
                  | None => None
                  end
            | EmptyString => None
            end
          else parse_number s1
      end
  end

with parse_elements (fuel : nat) (s : string) : option (list json * string) :=
  match fuel with
  | O => None
  | S fuel' =>
      match parse_value fuel' s with
      | Some (v, rest) =>
          match skip_ws rest with
          | String c rest1 =>
              if Ascii.eqb c "," then
                match parse_elements fuel' rest1 with
                | Some (l, rest2) => Some (v :: l, rest2)
                | None => None
                end
              else if Ascii.eqb c "]" then Some ([v], rest1)
              else None
          | EmptyString => None
          end
      | None => None
      end
  end

with parse_members (fuel : nat) (s : string)
  : option (list (string * json) * string) :=
  match fuel with
  | O => None
  | S fuel' =>
      match skip_ws s with
      | String c rest =>
          if Ascii.eqb c dquote then
            match parse_string_body rest with
            | Some (k, rest1) =>
                match skip_ws rest1 with
                | String c1 rest2 =>
                    if Ascii.eqb c1 ":" then
                      match parse_value fuel' rest2 with
                      | Some (v, rest3) =>
                          match skip_ws rest3 with
                          | String c2 rest4 =>
                              if Ascii.eqb c2 "," then
                                match parse_members fuel' rest4 with
                                | Some (m, rest5) => Some ((k, v) :: m, rest5)
                                | None => None
                                end
                              else if Ascii.eqb c2 "}" then Some ([(k, v)], rest4)
                              else None
                          | EmptyString => None
                          end
                      | None => None
                      end
                    else None
                | EmptyString => None
                end
            | None => None
            end
          else None
      | EmptyString => None
      end
  end.

(** [JSON.parse(text)]; [None] stands for the SyntaxError it throws. *)
Definition JSON_parse (text : string) : option json :=
  match parse_value (S (String.length text)) text with
  | Some (v, rest) =>
      match skip_ws rest with
      | EmptyString => Some v
      | String _ _ => None
      end
  | None => None
  end.

(** ** Tasks as JSON values *)

(** The own enumerable properties of a task in the order of the object
    literal of [create]; a property whose value is [undefined] (an absent
    [description]) is left out by [JSON.stringify]. *)
Definition todo_members (t : Todo) : list (string * json) :=
  ([("id", JString (Todo.id t)); ("title", JString (Todo.title t))]
     ++ match Todo.description t with
        | Some d => [("description", JString d)]
        | None => []
        end
     ++ [("completed", JBool (Todo.completed t));
         ("createdAt", JNumber (Todo.createdAt t));
         ("updatedAt", JNumber (Todo.updatedAt t))])%list.

Definition todo_to_json (t : Todo) : json := JObject (todo_members t).

Definition todos_to_json (l : list Todo) : json :=
  JArray (map todo_to_json l).

(** Property read [o[k]] on a parsed object: the last member named [k]. *)
Fixpoint property (k : string) (m : list (string * json)) : option json :=
  match m with
  | [] => None
  | (k', v) :: m' =>
      match property k m' with
      | Some v' => Some v'
      | None => if String.eqb k' k then Some v else None
      end
  end.

(** The cast [as Todo[]] checks nothing at run time; a parsed value is a
    collection of this model exactly when every element carries the
    properties of [Todo] with values of the declared types. *)
Definition todo_of_json (j : json) : option Todo :=
  match j with
  | JObject m =>
      match property "id" m, property "title" m, property "completed" m,
            property "createdAt" m, property "updatedAt" m with
      | Some (JString i), Some (JString ti), Some (JBool c),
        Some (JNumber ca), Some (JNumber ua) =>
          match property "description" m with
          | None => Some (Todo.mk i ti None c ca ua)
          | Some (JString d) => Some (Todo.mk i ti (Some d) c ca ua)
          | Some _ => None
          end
      | _, _, _, _, _ => None
      end
  | _ => None
  end.

Fixpoint todos_of_list (l : list json) : option (list Todo) :=
  match l with
  | [] => Some []
  | j :: l' =>
      match todo_of_json j, todos_of_list l' with
      | Some t, Some ts => Some (t :: ts)
      | _, _ => None
      end
  end.

Definition todos_of_json (j : json) : option (list Todo) :=
  match j with
  | JArray l => todos_of_list l
  | _ => None
  end.

(** ** Local storage *)

(** The slot of [localStorage] under [STORAGE_KEY]: [None] when
    [getItem] answers [null]. *)
Definition Storage : Type := option string.

Definition setTodos (l : list Todo) (st : State) : State :=
  {| todos := l; search := search st; filter := filter st;
     editing := editing st; title := title st;
     description := description st; modalOpen := modalOpen st |}.

(** The first effect: [if (raw) setTodos(JSON.parse(raw) as Todo[])] inside
    [try { ... } catch {}].  It answers the collection handed to [setTodos],
    if any: none for an absent or empty slot and none when [JSON.parse]
    throws.  This is the load effect on the slots of [own_slot] (absent,
    empty, or the text of a collection) and on a text that [JSON.parse]
    rejects.  On any other text the source hands the parsed value to
    [setTodos] whatever it is (a number, [null], an array of numbers), and
    the page is then no state of this model; [load] answers [None] there,
    which says nothing of the source, and no statement of this file takes
    [load] or [mount] at such a slot. *)
Definition load (storage : Storage) : option (list Todo) :=
  match storage with
  | Some raw =>
      if truthy raw then
        match JSON_parse raw with
        | Some j => todos_of_json j
        | None => None
        end
      else None
  | None => None
  end.

(** The second effect: [localStorage.setItem(STORAGE_KEY,
    JSON.stringify(todos))] inside [try { ... } catch {}]; [accepted] tells
    whether [setItem] returned rather than threw. *)
Definition save (accepted : bool) (l : list Todo) (storage : Storage) : Storage :=
  if accepted then Some (stringify (todos_to_json l)) else storage.

(** Mounting the component: the first render has [todos = []]; its effects
    run in source order, the load effect reading the slot before the persist
    effect writes the empty collection into it; when the load effect called
    [setTodos] the component renders again and the persist effect runs on the
    loaded collection. *)
Definition mount (accepted1 accepted2 : bool) (storage : Storage)
  : State * Storage :=
  let loaded := load storage in
  let storage1 := save accepted1 (todos initial) storage in
  match loaded with
  | Some l => (setTodos l initial, save accepted2 l storage1)
  | None => (initial, storage1)
  end.

(** ** Vocabulary of the statements *)

Fixpoint all_white_space (s : string) : bool :=
  match s with
  | EmptyString => true
  | String c s' => (is_white_space c && all_white_space s')%bool
  end.

Definition starts_with_white_space (s : string) : bool :=
  match s with
  | EmptyString => false
  | String c _ => is_white_space c
  end.

Fixpoint ends_with_white_space (s : string) : bool :=
  match s with
  | EmptyString => false
  | String c EmptyString => is_white_space c
  | String _ s' => ends_with_white_space s'
  end.

(** [t] is [s] with white space, and nothing else, taken off both ends. *)
Definition trimmed_form (s t : string) : Prop :=
  (exists a b, s = a ++ t ++ b
               /\ all_white_space a = true /\ all_white_space b = true)
  /\ starts_with_white_space t = false
  /\ ends_with_white_space t = false.

(** A state in which one task has been added at clock value 5. *)
Definition one_task : State :=
  run [EvOpenAdd; EvSetTitle "a"; EvCreate 5] initial.

(** The state after [openEdit] on the only task of [one_task], with a new
    title and description typed into the form. *)
Definition editing_one_task : State :=
  setDescription " later " (setTitle " c "
    (openEdit (new_todo 5 "a" "") one_task)).

(** The two tasks of the filtering example, the newer one in front. *)
Definition buy_milk : Todo := Todo.mk "2" "Buy milk" None false 2 2.
Definition pay_rent : Todo := Todo.mk "1" "Pay rent" (Some "") true 1 3.

Definition example_page (f : Filter) (text : string) : State :=
  setFilter f (setSearch text (setTodos [buy_milk; pay_rent] initial)).

(** The text against which a task is searched. *)
Definition haystack (t : Todo) : string :=
  Todo.title t ++ " " ++ or_empty (Todo.description t).

(** Every id of the collection is unique and renders one of the clock
    values in [used]. *)
Definition ids_from_clock (used : list Z) (l : list Todo) : Prop :=
  NoDup (ids l)
  /\ forall i, In i (ids l) -> exists n, In n used /\ i = String_of_number n.

(** ** Vocabulary of the JSON round trip *)

Section JsonInduction.
Variable P : json -> Prop.
Hypothesis P_null : P JNull.
Hypothesis P_bool : forall b, P (JBool b).
Hypothesis P_number : forall n, P (JNumber n).
Hypothesis P_string : forall s, P (JString s).
Hypothesis P_array : forall l, Forall P l -> P (JArray l).
Hypothesis P_object :
  forall m, Forall (fun kv => P (snd kv)) m -> P (JObject m).

(** Induction over a JSON value and, through it, over the elements of its
    arrays and the members of its objects. *)
Fixpoint json_nested_ind (j : json) : P j :=
  match j with
  | JNull => P_null
  | JBool b => P_bool b
  | JNumber n => P_number n
  | JString s => P_string s
  | JArray l =>
      P_array l
        ((fix elements (l : list json) : Forall P l :=
            match l with
            | [] => Forall_nil P
            | x :: l' => Forall_cons x (json_nested_ind x) (elements l')
            end) l)
  | JObject m =>
      P_object m
        ((fix members (m : list (string * json))
            : Forall (fun kv => P (snd kv)) m :=
            match m with
            | [] => Forall_nil _
            | kv :: m' =>
                Forall_cons kv (json_nested_ind (snd kv)) (members m')
            end) m)
  end.
End JsonInduction.

Definition starts_with_digit (s : string) : bool :=
  match s with
  | String c _ => is_digit c
  | EmptyString => false
  end.

(** What may follow the digits of a number for the number to end there. *)
Definition ends_number (rest : string) : Prop :=
  starts_with_digit rest = false /\ starts_fraction_or_exponent rest = false.

Fixpoint weight (j : json) : nat :=
  match j with
  | JArray l => S (list_sum (map (fun x => S (weight x)) l))
  | JObject m =>
      S (list_sum (map (fun kv : string * json => let (_, v) := kv in S (weight v)) m))
  | _ => 1
  end.

(** [j] is read back from its text, whatever follows the text, by a parser
    with fuel for the nesting of [j]. *)
Definition reads_back (j : json) : Prop :=
  forall (fuel : nat) (rest : string),
    (weight j <= fuel)%nat ->
    ends_number rest ->
    parse_value fuel (stringify j ++ rest) = Some (j, rest).

Definition stringify_members (m : list (string * json)) : list string :=
  map (fun kv : string * json => let (k, v) := kv in quote k ++ ":" ++ stringify v) m.

Definition members_weight (m : list (string * json)) : nat :=
  list_sum (map (fun kv : string * json => let (_, v) := kv in S (weight v)) m).

(** ** The page as the user drives it

    The controls that the JSX renders and the handler each one is wired to.
    A row of the table stands for one task of [filtered]; its three buttons
    call [openEdit(t)], [remove(t.id)] and [toggle(t.id)] on that task.  The
    modal, with its two fields and its two buttons, is rendered only while
    [modalOpen] holds.  The rows, the tabs, the search box and the add button
    are rendered at all times, under the modal as well. *)

Inductive Action : Type :=
| TypeSearch (s : string)
| ClickAdd
| ClickTab (f : Filter)
| ClickEdit (row : nat)
| ClickDelete (row : nat) (confirmed : bool)
| ClickDone (row : nat) (clock : nat -> Z)
| ClickBackdrop
| TypeTitle (s : string)
| TypeDescription (s : string)
| ClickCancel
| ClickSubmit (now : Z).

(** The task shown in row [k] of the table. *)
Definition row_task (st : State) (k : nat) : option Todo :=
  nth_error (filtered st) k.

Definition when_modal (st st' : State) : option State :=
  if modalOpen st then Some st' else None.

(** The state after the action, or [None] when the page shows no such
    control. *)
Definition act (st : State) (a : Action) : option State :=
  match a with
  | TypeSearch s => Some (setSearch s st)
  | ClickAdd => Some (openAdd st)
  | ClickTab f => Some (setFilter f st)
  | ClickEdit k =>
      match row_task st k with
      | Some t => Some (openEdit t st)
      | None => None
      end
  | ClickDelete k confirmed =>
      match row_task st k with
      | Some t => Some (remove confirmed (Todo.id t) st)
      | None => None
      end
  | ClickDone k clock =>
      match row_task st k with
      | Some t => Some (toggle clock (Todo.id t) st)
      | None => None
      end
  | ClickBackdrop => when_modal st (backdrop st)
  | TypeTitle s => when_modal st (setTitle s st)
  | TypeDescription s => when_modal st (setDescription s st)
  | ClickCancel => when_modal st (cancel st)
  | ClickSubmit now => when_modal st (submit now st)
  end.

Fixpoint play (acts : list Action) (st : State) : option State :=
  match acts with
  | [] => Some st
  | a :: acts' =>
      match act st a with
      | Some st' => play acts' st'
      | None => None
      end
  end.

(** The action makes its handler call [setTodos]; the array handed over is
    a new one each time, so the persist effect runs after the render. *)
Definition sets_todos (st : State) (a : Action) : bool :=
  match a with
  | ClickSubmit _ => (modalOpen st && truthy (trim (title st)))%bool
  | ClickDelete k confirmed =>
      match row_task st k with
      | Some _ => confirmed
      | None => false
      end
  | ClickDone k _ =>
      match row_task st k with
      | Some _ => true
      | None => false
      end
  | _ => false
  end.

(** One action on the page together with the slot of local storage;
    [accepted] tells whether the [setItem] of the persist effect, if it runs,
    returns rather than throws. *)
Definition page_step (w : State * Storage) (a : Action * bool)
  : option (State * Storage) :=
  let (st, storage) := w in
  let (action, accepted) := a in
  match act st action with
  | Some st' =>
      Some (st', if sets_todos st action
                 then save accepted (todos st') storage
                 else storage)
  | None => None
  end.

Fixpoint page_run (steps : list (Action * bool)) (w : State * Storage)
  : option (State * Storage) :=
  match steps with
  | [] => Some w
  | a :: steps' =>
      match page_step w a with
      | Some w' => page_run steps' w'
      | None => None
      end
  end.

(** ** Vocabulary of the further statements *)

Definition other_tab (f : Filter) : Filter :=
  match f with
  | F_todos => F_completed
  | F_completed => F_todos
  end.

(** A task as the form stores it: a title that is not empty and has no white
    space at its ends, and a description that is present and has none
    either. *)
Definition kept_by_form (t : Todo) : Prop :=
  Todo.title t <> EmptyString
  /\ trim (Todo.title t) = Todo.title t
  /\ exists d, Todo.description t = Some d /\ trim d = d.

(** The id of a task renders its time of creation. *)
Definition id_of_creation (t : Todo) : Prop :=
  Todo.id t = String_of_number (Todo.createdAt t).

(** Two states with the same page on the screen: they may differ in the text
    of the form only while the modal is closed. *)
Definition same_page (st1 st2 : State) : Prop :=
  todos st1 = todos st2
  /\ search st1 = search st2
  /\ filter st1 = filter st2
  /\ editing st1 = editing st2
  /\ modalOpen st1 = modalOpen st2
  /\ (modalOpen st1 = true ->
      title st1 = title st2 /\ description st1 = description st2).

Definition same_page_option (r1 r2 : option State) : Prop :=
  match r1, r2 with
  | Some st1, Some st2 => same_page st1 st2
  | None, None => True
  | _, _ => False
  end.

(** The ids of the collection and of the snapshot render times of
    creation. *)
Definition ids_of_creation (st : State) : Prop :=
  (forall t, In t (todos st) -> id_of_creation t)
  /\ (forall e, editing st = Some e -> id_of_creation e).

(** ** The table *)

(** What a row of the table shows for a task: the cells, the class of the
    row and the label of its last button.  [row_time] is the number handed to
    [fmt], [t.updatedAt || t.createdAt]; a description that is absent or
    empty renders as nothing. *)
Record Row : Type := mkRow
  { row_key : string;
    row_id : string;
    row_title : string;
    row_description : string;
    row_time : Z;
    row_completed : bool;
    row_button : string }.

Definition render_row (t : Todo) : Row :=
  {| row_key := Todo.id t;
     row_id := Todo.id t;
     row_title := Todo.title t;
     row_description := or_empty (Todo.description t);
     row_time := if Z.eqb (Todo.updatedAt t) 0
                 then Todo.createdAt t else Todo.updatedAt t;
     row_completed := Todo.completed t;
     row_button := if Todo.completed t then "Undo" else "Done" |}.

(** [filtered.map((t) => <tr ...>)]. *)
Definition rows (st : State) : list Row := map render_row (filtered st).

(** [filtered.length === 0 && <tr>No todos found.</tr>]. *)
Definition shows_no_todos_found (st : State) : bool :=
  Nat.eqb (length (filtered st)) 0.

(** The capital letters among the code units below U+0100: A to Z and
    U+00C0 to U+00DE without the multiplication sign. *)
Definition is_capital (c : ascii) : bool :=
  let n := N_of_ascii c in
  ((N.leb 65 n && N.leb n 90)
   || (N.leb 192 n && N.leb n 222 && negb (N.eqb n 215)))%bool.

(** Two code units below U+0100 that are the same letter: equal, or a
    capital and the small letter 32 places above it. *)
Definition same_letter (c d : ascii) : bool :=
  (Ascii.eqb c d
   || (is_capital c && N.eqb (N_of_ascii d) (N_of_ascii c + 32))
   || (is_capital d && N.eqb (N_of_ascii c) (N_of_ascii d + 32)))%bool.

(** Two texts that differ in the case of their letters only. *)
Fixpoint same_text_ignoring_case (x y : string) : bool :=
  match x, y with
  | EmptyString, EmptyString => true
  | String c x', String d y' =>
      (same_letter c d && same_text_ignoring_case x' y')%bool
  | _, _ => false
  end.

(** A slot as this page finds it on a first visit or has left it itself:
    absent, empty, or holding the text that the persist effect wrote for a
    collection.  On these slots [load] does what the load effect does. *)
Definition own_slot (storage : Storage) : Prop :=
  storage = None
  \/ storage = Some EmptyString
  \/ exists l, storage = Some (stringify (todos_to_json l)).

(** * Properties *)

(** Case analysis over the 256 code units. *)
Ltac each_code_unit c := destruct c as [[|] [|] [|] [|] [|] [|] [|] [|]].

(** ** Strings *)

Lemma truthy_false (s : string) : truthy s = false <-> s = EmptyString.
Proof. destruct s; simpl; split; congruence. Qed.

Lemma truthy_true (s : string) : truthy s = true <-> s <> EmptyString.
Proof. destruct s; simpl; split; congruence. Qed.

Lemma append_empty_r (s : string) : s ++ "" = s.
Proof. induction s; simpl; congruence. Qed.

Lemma append_assoc (a b c : string) : (a ++ b) ++ c = a ++ (b ++ c).
Proof. induction a; simpl; congruence. Qed.

Lemma trimStart_split (s : string) :
  exists a, s = a ++ trimStart s /\ all_white_space a = true.
Proof.
  induction s as [|c s [a [Ha Hw]]]; simpl.
  - exists EmptyString; auto.
  - destruct (is_white_space c) eqn:Hc.
    + exists (String c a); simpl. rewrite Hc, Hw. split; [congruence | reflexivity].
    + exists EmptyString; auto.
Qed.

Lemma trimStart_head (s : string) : starts_with_white_space (trimStart s) = false.
Proof.
  induction s as [|c s IH]; simpl; trivial.
  destruct (is_white_space c) eqn:Hc; simpl; trivial.
Qed.

Lemma trimEnd_split (s : string) :
  exists b, s = trimEnd s ++ b /\ all_white_space b = true.
Proof.
  induction s as [|c s [b [Hb Hw]]]; simpl.
  - exists EmptyString; auto.
  - destruct (trimEnd s) as [|d r] eqn:He.
    + destruct (is_white_space c) eqn:Hc.
      * exists (String c b); simpl in *. rewrite Hc, Hw. split; [congruence | reflexivity].
      * exists b; simpl in *. split; [congruence | assumption].
    + exists b; simpl in *. split; [congruence | assumption].
Qed.

Lemma trimEnd_last (s : string) : ends_with_white_space (trimEnd s) = false.
Proof.
  induction s as [|c s IH]; simpl; trivial.
  destruct (trimEnd s) as [|d r] eqn:He.
  - destruct (is_white_space c) eqn:Hc; simpl; trivial.
  - simpl in *. exact IH.
Qed.

Lemma trimEnd_head (s : string) :
  starts_with_white_space s = false ->
  starts_with_white_space (trimEnd s) = false.
Proof.
  destruct s as [|c s]; simpl; trivial.
  intros Hc. destruct (trimEnd s); [rewrite Hc|]; simpl; trivial.
Qed.

(** [trim] removes white space, and only white space, from both ends. *)
Lemma trim_trimmed_form (s : string) : trimmed_form s (trim s).
Proof.
  unfold trimmed_form, trim.
  destruct (trimStart_split s) as [a [Ha Hwa]].
  destruct (trimEnd_split (trimStart s)) as [b [Hb Hwb]].
  split; [|split].
  - exists a, b. rewrite <- Hb. auto.
  - apply trimEnd_head, trimStart_head.
  - apply trimEnd_last.
Qed.

Lemma prefix_spec (q s : string) :
  String.prefix q s = true <-> exists b, s = q ++ b.
Proof.
  revert s. induction q as [|c q IH]; intros s; simpl.
  - destruct s; split; eauto.
  - destruct s as [|d s]; [split; [discriminate | intros [b Hb]; discriminate]|].
    simpl. destruct (ascii_dec c d) as [->|Hcd].
    + rewrite IH. split; intros [b Hb]; exists b; congruence.
    + split; [discriminate | intros [b Hb]; congruence].
Qed.

(** [includes s q] holds exactly when [q] is a contiguous part of [s]. *)
Lemma includes_spec (s q : string) :
  includes s q = true <-> exists a b, s = a ++ q ++ b.
Proof.
  induction s as [|c s IH].
  - cbn [includes]. rewrite orb_false_r, prefix_spec. split.
    + intros [b Hb]. exists EmptyString, b. exact Hb.
    + intros [a [b Hab]]. destruct a; simpl in Hab; [eauto | discriminate].
  - cbn [includes]. rewrite orb_true_iff, prefix_spec, IH. split.
    + intros [[b Hb] | [a [b Hab]]].
      * exists EmptyString, b. exact Hb.
      * exists (String c a), b. simpl. congruence.
    + intros [a [b Hab]]. destruct a as [|d a]; simpl in Hab.
      * left. eauto.
      * right. exists a, b. congruence.
Qed.

Lemma includes_empty (s : string) : includes s "" = true.
Proof. destruct s; reflexivity. Qed.

(** Distinct integers have distinct decimal renderings. *)
Lemma String_of_number_inj (n m : Z) :
  String_of_number n = String_of_number m -> n = m.
Proof.
  unfold String_of_number. intros H.
  apply DecimalZ.to_int_inj.
  assert (Some (Z.to_int n) = Some (Z.to_int m)) as E
    by (rewrite <- !NilEmpty.isi, H; reflexivity).
  congruence.
Qed.

(** ** The handlers, case by case *)

Lemma create_rejected (now : Z) (st : State) :
  trim (title st) = EmptyString -> create now st = st.
Proof. intros H. unfold create. rewrite H. reflexivity. Qed.

Lemma create_accepted (now : Z) (st : State) :
  trim (title st) <> EmptyString ->
  create now st =
  {| todos := new_todo now (trim (title st)) (description st) :: todos st;
     search := search st; filter := filter st; editing := editing st;
     title := ""; description := ""; modalOpen := false |}.
Proof.
  intros H. unfold create.
  apply truthy_true in H. rewrite H. reflexivity.
Qed.

Lemma update_rejected (now : Z) (st : State) :
  trim (title st) = EmptyString -> update now st = st.
Proof.
  intros H. unfold update. destruct (editing st); trivial.
  rewrite H. reflexivity.
Qed.

Lemma update_accepted (now : Z) (st : State) (e : Todo) :
  editing st = Some e ->
  trim (title st) <> EmptyString ->
  todos (update now st) =
  map (fun x => if String.eqb (Todo.id x) (Todo.id e)
                then updated_todo now e (trim (title st)) (description st)
                else x)
      (todos st).
Proof.
  intros He H. unfold update. rewrite He.
  apply truthy_true in H. rewrite H. reflexivity.
Qed.

(** A [map] that replaces by id leaves the tasks of other ids alone. *)
Lemma map_other_ids (f : Todo -> Todo) (i : string) (l : list Todo) :
  (forall x, In x l -> Todo.id x <> i) ->
  map (fun x => if String.eqb (Todo.id x) i then f x else x) l = l.
Proof.
  induction l as [|x l IH]; intros H; simpl; trivial.
  assert (Todo.id x <> i) as Hx by (apply H; left; reflexivity).
  apply String.eqb_neq in Hx. rewrite Hx, IH; trivial.
  intros y Hy. apply H. right. exact Hy.
Qed.

Lemma map_one_id (f : Todo -> Todo) (i : string) (l1 l2 : list Todo) (t : Todo) :
  Todo.id t = i ->
  (forall x, In x (l1 ++ l2)%list -> Todo.id x <> i) ->
  map (fun x => if String.eqb (Todo.id x) i then f x else x) (l1 ++ t :: l2)%list
  = (l1 ++ f t :: l2)%list.
Proof.
  intros Ht H. rewrite map_app. simpl.
  rewrite !map_other_ids.
  - apply String.eqb_eq in Ht. rewrite Ht. reflexivity.
  - intros x Hx. apply H, in_or_app. right. exact Hx.
  - intros x Hx. apply H, in_or_app. left. exact Hx.
Qed.

Lemma map_by_id_ids (f : Todo -> Todo) (i : string) (l : list Todo) :
  (forall x, Todo.id x = i -> Todo.id (f x) = Todo.id x) ->
  ids (map (fun x => if String.eqb (Todo.id x) i then f x else x) l) = ids l.
Proof.
  intros Hf. unfold ids. rewrite map_map. apply map_ext.
  intros x. destruct (String.eqb (Todo.id x) i) eqn:E; trivial.
  apply Hf, String.eqb_eq, E.
Qed.

Lemma filter_in_other_ids (i : string) (l : list Todo) (x : Todo) :
  In x (List.filter (fun t => negb (String.eqb (Todo.id t) i)) l)
  <-> In x l /\ Todo.id x <> i.
Proof.
  rewrite filter_In, negb_true_iff, String.eqb_neq. reflexivity.
Qed.

Lemma filter_other_ids (i : string) (l : list Todo) :
  (forall x, In x l -> Todo.id x <> i) ->
  List.filter (fun t => negb (String.eqb (Todo.id t) i)) l = l.
Proof.
  induction l as [|x l IH]; intros H; simpl; trivial.
  assert (Todo.id x <> i) as Hx by (apply H; left; reflexivity).
  apply String.eqb_neq in Hx. rewrite Hx. simpl. rewrite IH; trivial.
  intros y Hy. apply H. right. exact Hy.
Qed.

Lemma toggle_from_other_ids (k : nat) (now : nat -> Z) (i : string) (l : list Todo) :
  (forall x, In x l -> Todo.id x <> i) -> toggle_from k now i l = l.
Proof.
  revert k. induction l as [|x l IH]; intros k H; cbn [toggle_from]; trivial.
  assert (Todo.id x <> i) as Hx by (apply H; left; reflexivity).
  apply String.eqb_neq in Hx. rewrite Hx, IH; trivial.
  intros y Hy. apply H. right. exact Hy.
Qed.

Lemma toggle_from_ids (k : nat) (now : nat -> Z) (i : string) (l : list Todo) :
  ids (toggle_from k now i l) = ids l.
Proof.
  revert k. induction l as [|x l IH]; intros k; cbn [toggle_from]; trivial.
  unfold ids in *. cbn [map]. rewrite IH.
  destruct (String.eqb (Todo.id x) i); reflexivity.
Qed.

Lemma nth_error_toggle_from
  (k : nat) (now : nat -> Z) (i : string) (l : list Todo) (n : nat) :
  nth_error (toggle_from k now i l) n
  = option_map (fun t => if String.eqb (Todo.id t) i
                         then toggled_todo (now (k + n)%nat) t else t)
               (nth_error l n).
Proof.
  revert k n. induction l as [|x l IH]; intros k [|n]; cbn [toggle_from nth_error option_map];
    trivial.
  - rewrite Nat.add_0_r. reflexivity.
  - rewrite IH. rewrite Nat.add_succ_r. reflexivity.
Qed.

(** *** Creation *)

(** C1, as amended: when the trimmed title is not empty, [create] puts one
    new task in front of the unchanged collection, which so grows by exactly
    one; the new task has the decimal rendering of the clock value as its id,
    the trimmed title, [completed = false] and [createdAt = updatedAt =] that
    clock value.  The id is new to the collection whenever the ids already
    there render clock values other than this one. *)
Theorem create_prepends_new_task (now : Z) (st : State) :
  trim (title st) <> EmptyString ->
  exists t,
    todos (create now st) = t :: todos st
    /\ length (todos (create now st)) = S (length (todos st))
    /\ Todo.id t = String_of_number now
    /\ Todo.title t = trim (title st)
    /\ Todo.completed t = false
    /\ Todo.createdAt t = now
    /\ Todo.updatedAt t = now
    /\ ((forall x, In x (todos st) ->
           exists n, Todo.id x = String_of_number n /\ n <> now) ->
        ~ In (Todo.id t) (ids (todos st))).
Proof.
  intros H. rewrite (create_accepted now st H). cbn [todos].
  exists (new_todo now (trim (title st)) (description st)).
  repeat split; trivial.
  intros Hold Hin. unfold ids in Hin. apply in_map_iff in Hin.
  destruct Hin as [x [Hx Hxin]].
  destruct (Hold x Hxin) as [n [Hn Hne]].
  apply Hne, String_of_number_inj. simpl in Hx. congruence.
Qed.

Lemma create_prepends_new_task_witness :
  exists t,
    todos (create 6 (setTitle " b " one_task)) = t :: todos (setTitle " b " one_task)
    /\ length (todos (create 6 (setTitle " b " one_task)))
       = S (length (todos (setTitle " b " one_task)))
    /\ Todo.id t = String_of_number 6
    /\ Todo.title t = trim (title (setTitle " b " one_task))
    /\ Todo.completed t = false
    /\ Todo.createdAt t = 6
    /\ Todo.updatedAt t = 6
    /\ ((forall x, In x (todos (setTitle " b " one_task)) ->
           exists n, Todo.id x = String_of_number n /\ n <> 6) ->
        ~ In (Todo.id t) (ids (todos (setTitle " b " one_task)))).
Proof.
  apply (create_prepends_new_task 6 (setTitle " b " one_task)).
  vm_compute. discriminate.
Defined.

(** C1, as stated, fails: a second creation at the clock value of the first
    gives the new task the id the collection already holds. *)
Lemma create_reuses_id_of_same_clock_value :
  let st := setTitle "b" (openAdd one_task) in
  trim (title st) <> EmptyString
  /\ exists t, todos (create 5 st) = t :: todos st
               /\ In (Todo.id t) (ids (todos st)).
Proof.
  split.
  - vm_compute. discriminate.
  - eexists. split; [reflexivity|]. vm_compute. left. reflexivity.
Qed.

(** *** Rejected submissions *)

(** C7: when the trimmed title is empty, [create] and [update], and so the
    submit button, return the state they were given: the collection, the open
    modal and both form fields are as before. *)
Theorem blank_title_submit_changes_nothing (now : Z) (st : State) :
  trim (title st) = EmptyString ->
  create now st = st
  /\ update now st = st
  /\ submit now st = st
  /\ todos (submit now st) = todos st
  /\ (modalOpen st = true -> modalOpen (submit now st) = true)
  /\ title (submit now st) = title st
  /\ description (submit now st) = description st.
Proof.
  intros H.
  assert (submit now st = st) as Hs.
  { unfold submit. destruct (editing st);
      [apply update_rejected | apply create_rejected]; exact H. }
  rewrite Hs. repeat split; auto using create_rejected, update_rejected.
Qed.

Lemma blank_title_submit_changes_nothing_witness :
  let st := setDescription "d" (setTitle "   " (openAdd one_task)) in
  create 9 st = st
  /\ update 9 st = st
  /\ submit 9 st = st
  /\ todos (submit 9 st) = todos st
  /\ (modalOpen st = true -> modalOpen (submit 9 st) = true)
  /\ title (submit 9 st) = title st
  /\ description (submit 9 st) = description st.
Proof.
  apply (blank_title_submit_changes_nothing 9
           (setDescription "d" (setTitle "   " (openAdd one_task)))).
  reflexivity.
Defined.

(** *** Ids that match no task *)

(** C9: when no task of the collection has the id, [toggle] returns the state
    it was given and [update], whatever the form holds, leaves the collection
    as it was; both are total functions, so neither is an error. *)
Theorem unmatched_id_changes_no_task
  (now : Z) (clock : nat -> Z) (i : string) (st : State) :
  (forall x, In x (todos st) -> Todo.id x <> i) ->
  toggle clock i st = st
  /\ todos (toggle clock i st) = todos st
  /\ (forall e, editing st = Some e -> Todo.id e = i ->
                todos (update now st) = todos st).
Proof.
  intros H.
  assert (toggle clock i st = st) as Ht.
  { unfold toggle. rewrite toggle_from_other_ids by exact H.
    destruct st; reflexivity. }
  rewrite Ht. repeat split; trivial.
  intros e He Hi. unfold update. rewrite He.
  destruct (negb (truthy (trim (title st)))); trivial.
  cbn [todos Todo.id updated_todo]. rewrite Hi.
  apply map_other_ids. exact H.
Qed.

Lemma unmatched_id_changes_no_task_witness :
  toggle (at_time 8) "77" one_task = one_task
  /\ todos (toggle (at_time 8) "77" one_task) = todos one_task
  /\ (forall e, editing one_task = Some e -> Todo.id e = "77" ->
                todos (update 8 one_task) = todos one_task).
Proof.
  apply (unmatched_id_changes_no_task 8 (at_time 8) "77" one_task).
  intros x [<-|[]]. vm_compute. discriminate.
Defined.

(** *** Stored descriptions *)

(** C10: whenever [create] or [update] stores a task, its description is the
    description field of the form with white space, and nothing else, taken
    off both ends: [create] puts such a task in front, and [update] puts such
    a task in the place of every task that has the id of the one being
    edited, so that no task of that id is left with another description. *)
Theorem stored_description_is_trimmed (now : Z) (st : State) :
  trim (title st) <> EmptyString ->
  (exists t, todos (create now st) = t :: todos st
             /\ Todo.description t = Some (trim (description st)))
  /\ (forall e k x, editing st = Some e ->
                    nth_error (todos st) k = Some x -> Todo.id x = Todo.id e ->
                    exists y, nth_error (todos (update now st)) k = Some y
                              /\ Todo.id y = Todo.id e
                              /\ Todo.description y
                                 = Some (trim (description st)))
  /\ (forall e y, editing st = Some e ->
                  In y (todos (update now st)) -> Todo.id y = Todo.id e ->
                  Todo.description y = Some (trim (description st)))
  /\ trimmed_form (description st) (trim (description st)).
Proof.
  intros H. split; [|split; [|split]].
  - rewrite (create_accepted now st H). cbn [todos].
    eexists. split; reflexivity.
  - intros e k x He Hk Hid.
    rewrite (update_accepted now st e He H), nth_error_map, Hk.
    cbn [option_map]. apply String.eqb_eq in Hid. rewrite Hid.
    eexists. repeat split.
  - intros e y He Hy Hid.
    rewrite (update_accepted now st e He H) in Hy.
    apply in_map_iff in Hy. destruct Hy as [x [Hx _]].
    destruct (String.eqb (Todo.id x) (Todo.id e)) eqn:E.
    + subst y. reflexivity.
    + subst y. apply String.eqb_neq in E. contradiction.
  - apply trim_trimmed_form.
Qed.

Lemma stored_description_is_trimmed_witness :
  (exists t, todos (create 6 editing_one_task) = t :: todos editing_one_task
             /\ Todo.description t = Some (trim (description editing_one_task)))
  /\ (forall e k x, editing editing_one_task = Some e ->
                    nth_error (todos editing_one_task) k = Some x ->
                    Todo.id x = Todo.id e ->
                    exists y, nth_error (todos (update 6 editing_one_task)) k = Some y
                              /\ Todo.id y = Todo.id e
                              /\ Todo.description y
                                 = Some (trim (description editing_one_task)))
  /\ (forall e y, editing editing_one_task = Some e ->
                  In y (todos (update 6 editing_one_task)) ->
                  Todo.id y = Todo.id e ->
                  Todo.description y = Some (trim (description editing_one_task)))
  /\ trimmed_form (description editing_one_task)
                  (trim (description editing_one_task)).
Proof.
  apply (stored_description_is_trimmed 6 editing_one_task).
  vm_compute. discriminate.
Defined.

(** *** Editing *)

(** C3, as amended: when the form edits the task [e] as the collection holds
    it, no other task carries the id of [e], the trimmed title is not empty
    and the clock value is not below the [updatedAt] of [e], [update] puts in
    the place of [e] a task with the id, [createdAt] and [completed] of [e],
    the trimmed title and description of the form and the clock value as
    [updatedAt], which is not below the old one; every other task stays, in
    its place. *)
Theorem update_replaces_edited_task
  (now : Z) (st : State) (e : Todo) (l1 l2 : list Todo) :
  editing st = Some e ->
  todos st = (l1 ++ e :: l2)%list ->
  (forall x, In x (l1 ++ l2)%list -> Todo.id x <> Todo.id e) ->
  trim (title st) <> EmptyString ->
  Todo.updatedAt e <= now ->
  exists e',
    todos (update now st) = (l1 ++ e' :: l2)%list
    /\ Todo.id e' = Todo.id e
    /\ Todo.createdAt e' = Todo.createdAt e
    /\ Todo.completed e' = Todo.completed e
    /\ Todo.title e' = trim (title st)
    /\ Todo.description e' = Some (trim (description st))
    /\ Todo.updatedAt e' = now
    /\ Todo.updatedAt e <= Todo.updatedAt e'.
Proof.
  intros He Hl Hother Ht Hclock.
  exists (updated_todo now e (trim (title st)) (description st)).
  rewrite (update_accepted now st e He Ht), Hl.
  split.
  - apply (map_one_id
             (fun _ => updated_todo now e (trim (title st)) (description st)));
      trivial.
  - repeat split; trivial.
Qed.

Lemma update_replaces_edited_task_witness :
  exists e',
    todos (update 9 editing_one_task) = ([] ++ e' :: [])%list
    /\ Todo.id e' = Todo.id (new_todo 5 "a" "")
    /\ Todo.createdAt e' = Todo.createdAt (new_todo 5 "a" "")
    /\ Todo.completed e' = Todo.completed (new_todo 5 "a" "")
    /\ Todo.title e' = trim (title editing_one_task)
    /\ Todo.description e' = Some (trim (description editing_one_task))
    /\ Todo.updatedAt e' = 9
    /\ Todo.updatedAt (new_todo 5 "a" "") <= Todo.updatedAt e'.
Proof.
  apply (update_replaces_edited_task 9 editing_one_task (new_todo 5 "a" "") [] []).
  - reflexivity.
  - reflexivity.
  - intros x [].
  - vm_compute. discriminate.
  - simpl. lia.
Defined.

(** C3, as stated, fails, in three ways.
    - [update] writes back the snapshot taken by [openEdit].  The only task
      is opened for editing, completed by [toggle] while the form is open (the
      buttons of the rows stay enabled under the modal) and then submitted:
      the task of that id had [completed = true] before [update] and has
      [completed = false] after it.
    - [update] replaces every task that has the id of the snapshot.  Two tasks
      created at one clock value share their id; after the first is completed
      and the second edited, the first is a copy of the second: its title and
      its [completed] flag are gone.
    - [update] stores the clock value whatever it is: with a clock value below
      the stored [updatedAt], [updatedAt] goes down. *)
Lemma update_as_stated_fails :
  (let st := run [EvOpenAdd; EvSetTitle "a"; EvCreate 5;
                  EvOpenEdit (new_todo 5 "a" EmptyString);
                  EvToggle (at_time 6) "5"; EvSetTitle "c"] initial in
   exists e x y,
     editing st = Some e
     /\ todos st = [x]
     /\ Todo.id x = Todo.id e
     /\ trim (title st) <> EmptyString
     /\ todos (update 7 st) = [y]
     /\ Todo.id y = Todo.id x
     /\ Todo.completed x = true
     /\ Todo.completed y = false)
  /\ (let st := run [EvOpenAdd; EvSetTitle "a"; EvCreate 5;
                     EvToggle (at_time 5) "5";
                     EvOpenAdd; EvSetTitle "b"; EvCreate 5;
                     EvOpenEdit (new_todo 5 "b" EmptyString);
                     EvSetTitle "c"] initial in
      exists e other y,
        editing st = Some e
        /\ todos st = [e; other]
        /\ trim (title st) <> EmptyString
        /\ todos (update 7 st) = [y; y]
        /\ Todo.title other = "a" /\ Todo.completed other = true
        /\ Todo.title y = "c" /\ Todo.completed y = false)
  /\ (exists e y,
        editing editing_one_task = Some e
        /\ todos editing_one_task = [e]
        /\ todos (update 3 editing_one_task) = [y]
        /\ Todo.updatedAt y < Todo.updatedAt e).
Proof.
  split; [|split].
  - do 3 eexists. repeat split; try reflexivity. vm_compute. discriminate.
  - do 3 eexists. repeat split; try reflexivity. vm_compute. discriminate.
  - do 2 eexists. repeat split; reflexivity.
Qed.

(** *** Completion *)

(** C4, as amended: for a task [t] of the collection, at any position [k],
    [toggle] on its id negates its [completed] flag and sets its [updatedAt] to
    the clock value read for it in that call, so that a second [toggle] gives
    the flag its first value back; [updatedAt] grows whenever the clock value
    lies above the stored one.  The id, title, description and [createdAt]
    stay. *)
Theorem toggle_twice_restores_completed
  (now1 now2 : nat -> Z) (i : string) (st : State) (k : nat) (t : Todo) :
  nth_error (todos st) k = Some t ->
  Todo.id t = i ->
  exists t1 t2,
    nth_error (todos (toggle now1 i st)) k = Some t1
    /\ nth_error (todos (toggle now2 i (toggle now1 i st))) k = Some t2
    /\ Todo.completed t1 = negb (Todo.completed t)
    /\ Todo.completed t2 = Todo.completed t
    /\ Todo.updatedAt t1 = now1 k
    /\ Todo.updatedAt t2 = now2 k
    /\ (Todo.updatedAt t < now1 k -> Todo.updatedAt t < Todo.updatedAt t1)
    /\ (now1 k < now2 k -> Todo.updatedAt t1 < Todo.updatedAt t2)
    /\ (Todo.id t2, Todo.title t2, Todo.description t2, Todo.createdAt t2)
       = (Todo.id t, Todo.title t, Todo.description t, Todo.createdAt t).
Proof.
  intros Hk Hi.
  exists (toggled_todo (now1 k) t),
         (toggled_todo (now2 k) (toggled_todo (now1 k) t)).
  cbn [toggle todos]. rewrite !nth_error_toggle_from, Hk. cbn [option_map].
  apply String.eqb_eq in Hi. rewrite Hi. cbn [toggled_todo Todo.id].
  rewrite Hi. cbn. rewrite negb_involutive. repeat split; trivial.
Qed.

Lemma toggle_twice_restores_completed_witness :
  exists t1 t2,
    nth_error (todos (toggle (at_time 6) "5" one_task)) 0 = Some t1
    /\ nth_error (todos (toggle (at_time 8) "5" (toggle (at_time 6) "5" one_task))) 0
       = Some t2
    /\ Todo.completed t1 = negb (Todo.completed (new_todo 5 "a" EmptyString))
    /\ Todo.completed t2 = Todo.completed (new_todo 5 "a" EmptyString)
    /\ Todo.updatedAt t1 = at_time 6 0%nat
    /\ Todo.updatedAt t2 = at_time 8 0%nat
    /\ (Todo.updatedAt (new_todo 5 "a" EmptyString) < at_time 6 0%nat ->
        Todo.updatedAt (new_todo 5 "a" EmptyString) < Todo.updatedAt t1)
    /\ (at_time 6 0%nat < at_time 8 0%nat ->
        Todo.updatedAt t1 < Todo.updatedAt t2)
    /\ (Todo.id t2, Todo.title t2, Todo.description t2, Todo.createdAt t2)
       = (Todo.id (new_todo 5 "a" EmptyString),
          Todo.title (new_todo 5 "a" EmptyString),
          Todo.description (new_todo 5 "a" EmptyString),
          Todo.createdAt (new_todo 5 "a" EmptyString)).
Proof.
  apply (toggle_twice_restores_completed (at_time 6) (at_time 8) "5" one_task 0
           (new_todo 5 "a" EmptyString));
    reflexivity.
Defined.

(** C4, as stated, fails: a [toggle] at the clock value the task already
    carries, here the one of its creation, leaves its [updatedAt] as it
    was. *)
Lemma toggle_at_same_clock_value_keeps_updatedAt :
  exists t t',
    todos one_task = [t]
    /\ todos (toggle (at_time 5) (Todo.id t) one_task) = [t']
    /\ Todo.completed t' = negb (Todo.completed t)
    /\ Todo.updatedAt t' = Todo.updatedAt t.
Proof. do 2 eexists. repeat split; reflexivity. Qed.

(** *** Removal *)

(** C6, as amended: [remove] with the confirmation declined returns the state
    it was given; with the confirmation granted it keeps exactly the tasks of
    other ids, as they were and in their order, so it deletes the one task of
    that id when there is one and only one, and nothing when there is none. *)
Theorem remove_deletes_tasks_of_the_id (i : string) (st : State) :
  remove false i st = st
  /\ (forall x, In x (todos (remove true i st))
                <-> In x (todos st) /\ Todo.id x <> i)
  /\ List.filter (fun t => negb (String.eqb (Todo.id t) i))
                 (todos (remove true i st))
     = List.filter (fun t => negb (String.eqb (Todo.id t) i)) (todos st)
  /\ (forall l1 t l2,
        todos st = (l1 ++ t :: l2)%list -> Todo.id t = i ->
        (forall x, In x (l1 ++ l2)%list -> Todo.id x <> i) ->
        todos (remove true i st) = (l1 ++ l2)%list)
  /\ ((forall x, In x (todos st) -> Todo.id x <> i) ->
      todos (remove true i st) = todos st).
Proof.
  split; [reflexivity|]. cbn [remove negb todos]. split; [|split; [|split]].
  - intros x. apply filter_in_other_ids.
  - apply filter_other_ids. intros x Hx.
    apply filter_in_other_ids in Hx. tauto.
  - intros l1 t l2 Hl Ht H. rewrite Hl, filter_app. simpl.
    apply String.eqb_eq in Ht. rewrite Ht. simpl.
    rewrite !filter_other_ids; trivial.
    + intros x Hx. apply H, in_or_app. right. exact Hx.
    + intros x Hx. apply H, in_or_app. left. exact Hx.
  - apply filter_other_ids.
Qed.

(** C6, as stated, fails: for an id that no task has, a confirmed [remove]
    deletes nothing; for an id that two tasks share, it deletes both. *)
Lemma remove_does_not_always_delete_one :
  length (todos (remove true "7" one_task)) = length (todos one_task)
  /\ let st := create 5 (setTitle "b" (openAdd one_task)) in
     length (todos st) = 2%nat /\ length (todos (remove true "5" st)) = 0%nat.
Proof. repeat split. Qed.

(** *** The displayed list *)

Lemma shown_as_specified (f : Filter) (text : string) (t : Todo) :
  shown f (toLowerCase text) t
  = (status_matches f t && contains_ignoring_case (haystack t) text)%bool.
Proof.
  unfold shown, contains_ignoring_case, haystack, status_matches.
  destruct (truthy (toLowerCase text)) eqn:E.
  - destruct f, (Todo.completed t); reflexivity.
  - apply truthy_false in E. rewrite E, includes_empty.
    destruct f, (Todo.completed t); reflexivity.
Qed.

(** C5, as amended: the displayed list is the view of the specification
    taken for the search text with the white space at its ends removed: the
    tasks whose [completed] flag matches the status filter and whose title,
    a space and the description contain that trimmed text when case is
    ignored, in collection order.  On the two example tasks the four queries
    answer as listed. *)
Theorem filtered_is_view_of_trimmed_search :
  (forall st,
      filtered st = view_as_specified (filter st) (trim (search st)) (todos st))
  /\ (forall st t,
        In t (filtered st) <->
        In t (todos st)
        /\ Todo.completed t = is_completed (filter st)
        /\ exists a b, toLowerCase (haystack t)
                       = a ++ toLowerCase (trim (search st)) ++ b)
  /\ filtered (example_page F_todos "") = [buy_milk]
  /\ filtered (example_page F_completed "") = [pay_rent]
  /\ filtered (example_page F_todos "milk") = [buy_milk]
  /\ filtered (example_page F_todos "rent") = [].
Proof.
  split; [|split].
  - intros st. unfold filtered, view_as_specified.
    apply filter_ext. intros t. apply shown_as_specified.
  - intros st t. unfold filtered.
    rewrite filter_In, shown_as_specified, andb_true_iff.
    unfold contains_ignoring_case. rewrite includes_spec.
    assert (status_matches (filter st) t = true
            <-> Todo.completed t = is_completed (filter st)) as ->.
    { unfold status_matches.
      destruct (filter st), (Todo.completed t); simpl; split; congruence. }
    reflexivity.
  - repeat split.
Qed.

(** C5, as stated, fails: the search text is trimmed before it is looked
    for.  With two leading spaces before "milk" the page shows the task,
    whose text does not contain the search text as typed. *)
Lemma filtered_ignores_surrounding_spaces :
  let st := example_page F_todos "  milk" in
  filtered st = [buy_milk]
  /\ view_as_specified (filter st) (search st) (todos st) = []
  /\ contains_ignoring_case (haystack buy_milk) (search st) = false.
Proof. repeat split. Qed.

(** *** Ids along a run *)

Lemma NoDup_ids_filter (p : Todo -> bool) (l : list Todo) :
  NoDup (ids l) -> NoDup (ids (List.filter p l)).
Proof.
  induction l as [|x l IH]; simpl; intros H; trivial.
  inversion H as [|? ? Hx Hl]; subst.
  destruct (p x); simpl; auto.
  constructor; auto.
  intros Hin. apply Hx. unfold ids in *.
  apply in_map_iff in Hin. destruct Hin as [y [Hy Hin]].
  apply in_map_iff. exists y. split; trivial.
  apply filter_In in Hin. tauto.
Qed.

Lemma ids_from_clock_weaken (used used' : list Z) (l : list Todo) :
  incl used used' -> ids_from_clock used l -> ids_from_clock used' l.
Proof.
  intros Hincl [Hnd Hfrom]. split; trivial.
  intros i Hi. destruct (Hfrom i Hi) as [n [Hn E]]. eauto.
Qed.

(** Every handler but [create] keeps the ids, or drops some. *)
Lemma step_keeps_ids_from_clock (used : list Z) (st : State) (ev : Event) :
  (forall now, ev <> EvCreate now) ->
  ids_from_clock used (todos st) ->
  ids_from_clock used (todos (step st ev)).
Proof.
  intros Hev Inv. destruct ev; simpl; trivial.
  - exfalso. eapply Hev. reflexivity.
  - unfold update. destruct (editing st) as [e|]; trivial.
    destruct (negb (truthy (trim (title st)))); trivial.
    cbn [todos]. unfold ids_from_clock.
    rewrite (map_by_id_ids (fun _ => _)); trivial.
    intros x Hx. rewrite Hx. reflexivity.
  - destruct confirmed; trivial. cbn [remove negb todos].
    destruct Inv as [Hnd Hfrom]. split.
    + apply NoDup_ids_filter. exact Hnd.
    + intros i Hi. apply Hfrom. unfold ids in *.
      apply in_map_iff in Hi. destruct Hi as [y [Hy Hin]].
      apply in_map_iff. exists y. split; trivial.
      apply filter_In in Hin. tauto.
  - cbn [toggle todos]. unfold ids_from_clock.
    rewrite toggle_from_ids. exact Inv.
Qed.

Lemma create_keeps_ids_from_clock (used : list Z) (st : State) (now : Z) :
  ~ In now used ->
  truthy (trim (title st)) = true ->
  ids_from_clock used (todos st) ->
  ids_from_clock (now :: used) (todos (create now st)).
Proof.
  intros Hnew Ht Inv. unfold create. rewrite Ht.
  cbn [negb todos]. destruct Inv as [Hnd Hfrom]. split.
  - simpl. constructor; trivial.
    intros Hin. destruct (Hfrom _ Hin) as [n [Hn E]].
    apply String_of_number_inj in E. congruence.
  - simpl. intros i [<-|Hi].
    + exists now. split; [left|]; reflexivity.
    + destruct (Hfrom i Hi) as [n [Hn E]]. exists n. split; [right|]; trivial.
Qed.

Lemma run_keeps_ids_from_clock (evs : list Event) :
  forall (used : list Z) (st : State),
    NoDup (create_times evs st) ->
    (forall n, In n (create_times evs st) -> ~ In n used) ->
    ids_from_clock used (todos st) ->
    ids_from_clock (rev (create_times evs st) ++ used)%list
                   (todos (run evs st)).
Proof.
  induction evs as [|ev evs IH]; intros used st Hnd Hnew Inv; trivial.
  assert ((exists now, ev = EvCreate now) \/ (forall now, ev <> EvCreate now))
    as [[now ->]|Hev]
    by (destruct ev; try (right; discriminate); left; eauto).
  - cbn [create_times] in *.
    destruct (truthy (trim (title st))) eqn:Ht.
    + inversion Hnd as [|? ? Hx Hl]; subst.
      cbn [rev]. rewrite <- app_assoc. cbn [app].
      apply (IH (now :: used) (step st (EvCreate now))); trivial.
      * intros n Hn [<-|Hu]; [contradiction|].
        apply (Hnew n); [right|]; trivial.
      * apply create_keeps_ids_from_clock; trivial.
        apply Hnew. left. reflexivity.
    + apply (IH used (step st (EvCreate now))); trivial.
      cbn [step]. unfold create. rewrite Ht. exact Inv.
  - assert (create_times (ev :: evs) st = create_times evs (step st ev)) as E
      by (destruct ev; try reflexivity; exfalso; eapply Hev; reflexivity).
    rewrite E in *.
    apply (IH used (step st ev)); trivial.
    apply step_keeps_ids_from_clock; trivial.
Qed.

(** C2, as amended: in every state reached from the initial one by any run
    of the handlers in which no two [create] calls read the same clock value,
    the ids of the tasks are pairwise distinct. *)
Theorem ids_unique_when_creations_differ_in_time (evs : list Event) :
  NoDup (create_times evs initial) ->
  NoDup (ids (todos (run evs initial))).
Proof.
  intros Hnd.
  assert (ids_from_clock [] (todos initial)) as Hinit
    by (split; [constructor | intros i []]).
  destruct (run_keeps_ids_from_clock evs [] initial Hnd
              (fun n _ (H : In n []) => H) Hinit) as [H _].
  exact H.
Qed.

Lemma ids_unique_when_creations_differ_in_time_witness :
  NoDup (ids (todos (run [EvOpenAdd; EvSetTitle "a"; EvCreate 5;
                          EvToggle (at_time 6) "5";
                          EvOpenAdd; EvCreate 5;
                          EvSetTitle "b"; EvCreate 7;
                          EvRemove true "5"] initial))).
Proof.
  apply (ids_unique_when_creations_differ_in_time
           [EvOpenAdd; EvSetTitle "a"; EvCreate 5; EvToggle (at_time 6) "5";
            EvOpenAdd; EvCreate 5; EvSetTitle "b"; EvCreate 7;
            EvRemove true "5"]).
  vm_compute. constructor.
  - simpl. intros [H|[]]. discriminate H.
  - constructor; [intros [] | constructor].
Defined.

(** C2, as stated, fails: two creations at one clock value give two tasks
    with one id. *)
Lemma two_creations_at_one_clock_value_share_id :
  let st := run [EvOpenAdd; EvSetTitle "a"; EvCreate 5;
                 EvOpenAdd; EvSetTitle "b"; EvCreate 5] initial in
  ids (todos st) = ["5"; "5"] /\ ~ NoDup (ids (todos st)).
Proof.
  split; [reflexivity|].
  intros H. inversion H as [|? ? Hx _]. apply Hx. left. reflexivity.
Qed.

(** ** JSON text round trip *)


Lemma length_append (a b : string) :
  String.length (a ++ b) = (String.length a + String.length b)%nat.
Proof. induction a; simpl; congruence. Qed.

(** *** String literals *)

Lemma parse_escape_char (c : ascii) (k : string) :
  parse_string_body (escape_char c ++ k) = cons_char c (parse_string_body k).
Proof.
  each_code_unit c; reflexivity.
Qed.

Lemma parse_escape (s rest : string) :
  parse_string_body (escape s ++ String dquote rest) = Some (s, rest).
Proof.
  induction s as [|c s IH].
  - reflexivity.
  - cbn [escape]. rewrite append_assoc, parse_escape_char, IH. reflexivity.
Qed.

Lemma quote_append (s rest : string) :
  quote s ++ rest = String dquote (escape s ++ String dquote rest).
Proof. unfold quote. cbn [append]. rewrite append_assoc. reflexivity. Qed.

(** *** Numbers *)

Lemma span_digits_uint (u : Decimal.uint) (rest : string) :
  starts_with_digit rest = false ->
  span_digits (NilEmpty.string_of_uint u ++ rest)
  = (NilEmpty.string_of_uint u, rest).
Proof.
  intros Hrest. induction u; cbn [NilEmpty.string_of_uint append span_digits];
    try (rewrite IHu; reflexivity).
  destruct rest as [|c r]; trivial.
  cbn [span_digits]. simpl in Hrest. rewrite Hrest. reflexivity.
Qed.

Lemma to_uint_head (p : positive) :
  Pos.to_uint p <> Decimal.Nil /\ forall d, Pos.to_uint p <> Decimal.D0 d.
Proof.
  split; [apply Unsigned.to_uint_nonnil|].
  intros d Hd.
  assert (Pos.to_uint p = Decimal.unorm (Pos.to_uint p)) as E.
  { rewrite <- Unsigned.to_of, Unsigned.of_to. reflexivity. }
  unfold Decimal.unorm in E.
  destruct (Decimal.nzhead (Pos.to_uint p)) eqn:Hz;
    try (rewrite Hd in E; discriminate E).
  - apply (Unsigned.to_uint_nonzero p). exact E.
  - apply (DecimalFacts.nzhead_nonzero _ _ Hz).
Qed.

Lemma uint_head_digit (u : Decimal.uint) :
  u <> Decimal.Nil -> (forall d, u <> Decimal.D0 d) ->
  exists c s,
    NilEmpty.string_of_uint u = String c s
    /\ is_digit c = true
    /\ Ascii.eqb c "0" = false.
Proof.
  intros Hnil Hzero.
  destruct u; cbn [NilEmpty.string_of_uint];
    try (do 2 eexists; repeat split; reflexivity).
  - contradiction.
  - exfalso. eapply Hzero. reflexivity.
Qed.

Lemma digit_not_minus (c : ascii) : is_digit c = true -> Ascii.eqb c "-" = false.
Proof.
  each_code_unit c; trivial; discriminate.
Qed.

Lemma parse_digits_uint (negative : bool) (u : Decimal.uint) (rest : string) :
  u <> Decimal.Nil -> (forall d, u <> Decimal.D0 d) ->
  ends_number rest ->
  parse_digits negative (NilEmpty.string_of_uint u ++ rest)
  = Some (JNumber (Z.of_int (if negative then Decimal.Neg u else Decimal.Pos u)),
          rest).
Proof.
  intros Hnil Hzero [Hdigit Hfrac].
  unfold parse_digits. rewrite span_digits_uint by exact Hdigit.
  destruct (uint_head_digit u Hnil Hzero) as [c [s [E [_ Hc]]]].
  rewrite E, Hc, Hfrac. cbn [andb]. rewrite <- E, NilEmpty.usu. reflexivity.
Qed.

(** The text of an integer is read back as that integer. *)
Lemma parse_number_String_of_number (n : Z) (rest : string) :
  ends_number rest ->
  parse_number (String_of_number n ++ rest) = Some (JNumber n, rest).
Proof.
  intros Hrest. unfold String_of_number.
  rewrite <- (DecimalZ.of_to n) at 2.
  destruct n as [|p|p]; cbn [Z.to_int NilEmpty.string_of_int].
  - destruct Hrest as [Hdigit Hfrac].
    change (parse_digits false
              (NilEmpty.string_of_uint (Decimal.D0 Decimal.Nil) ++ rest)
            = Some (JNumber 0, rest)).
    unfold parse_digits. rewrite span_digits_uint by exact Hdigit.
    cbn. rewrite Hfrac. reflexivity.
  - destruct (to_uint_head p) as [Hnil Hzero].
    destruct (uint_head_digit _ Hnil Hzero) as [c [s [E [Hd _]]]].
    unfold parse_number. rewrite E. cbn [append].
    rewrite (digit_not_minus c Hd).
    change (String c (s ++ rest)) with (String c s ++ rest). rewrite <- E.
    apply parse_digits_uint; trivial.
  - destruct (to_uint_head p) as [Hnil Hzero].
    cbn [append parse_number]. cbn [Ascii.eqb Bool.eqb].
    apply parse_digits_uint; trivial.
Qed.

Lemma String_of_number_head (n : Z) :
  exists c s,
    String_of_number n = String c s
    /\ (c = "-"%char \/ is_digit c = true).
Proof.
  unfold String_of_number.
  destruct n as [|p|p]; cbn [Z.to_int NilEmpty.string_of_int].
  - do 2 eexists. split; [reflexivity | right; reflexivity].
  - destruct (to_uint_head p) as [Hnil Hzero].
    destruct (uint_head_digit _ Hnil Hzero) as [c [s [E [Hd _]]]].
    exists c, s. auto.
  - do 2 eexists. split; [reflexivity | left; reflexivity].
Qed.

(** *** Values *)

Lemma parse_value_number (fuel : nat) (c : ascii) (s : string) :
  c = "-"%char \/ is_digit c = true ->
  parse_value (S fuel) (String c s) = parse_number (String c s).
Proof.
  intros [->|H]; [reflexivity|].
  each_code_unit c; try discriminate H; reflexivity.
Qed.

Lemma ends_number_comma (s : string) : ends_number (String "," s).
Proof. split; reflexivity. Qed.

Lemma ends_number_bracket (s : string) : ends_number (String "]" s).
Proof. split; reflexivity. Qed.

Lemma ends_number_brace (s : string) : ends_number (String "}" s).
Proof. split; reflexivity. Qed.

Lemma ends_number_empty : ends_number EmptyString.
Proof. split; reflexivity. Qed.

Lemma concat_cons (sep a b : string) (t : list string) :
  String.concat sep (a :: b :: t) = a ++ sep ++ String.concat sep (b :: t).
Proof. reflexivity. Qed.

Lemma parse_elements_more (fuel : nat) (s r : string) (v : json) :
  parse_value fuel s = Some (v, String "," r) ->
  parse_elements (S fuel) s
  = match parse_elements fuel r with
    | Some (l, rest) => Some (v :: l, rest)
    | None => None
    end.
Proof. intros H. cbn [parse_elements]. rewrite H. reflexivity. Qed.

Lemma parse_elements_last (fuel : nat) (s r : string) (v : json) :
  parse_value fuel s = Some (v, String "]" r) ->
  parse_elements (S fuel) s = Some ([v], r).
Proof. intros H. cbn [parse_elements]. rewrite H. reflexivity. Qed.

Lemma parse_elements_text (x : json) (l : list json) :
  Forall reads_back (x :: l) ->
  forall (fuel : nat) (rest : string),
    (list_sum (map (fun x => S (weight x)) (x :: l)) <= fuel)%nat ->
    parse_elements fuel
      (String.concat "," (map stringify (x :: l)) ++ String "]" rest)
    = Some (x :: l, rest).
Proof.
  revert x. induction l as [|y l IH]; intros x HF fuel rest Hfuel;
    inversion HF as [|? ? Hx HF']; subst;
    destruct fuel as [|fuel]; simpl in Hfuel; try lia.
  - apply parse_elements_last. apply Hx; [lia | apply ends_number_bracket].
  - cbn [map]. rewrite concat_cons, !append_assoc.
    rewrite (parse_elements_more fuel _
               (String.concat "," (stringify y :: map stringify l)
                ++ String "]" rest) x)
      by (apply Hx; [lia | apply ends_number_comma]).
    pose proof (IH y HF' fuel rest) as IHy. cbn [map] in IHy.
    rewrite IHy by (simpl; lia). reflexivity.
Qed.

Lemma member_text (k : string) (v : json) (rest : string) :
  (quote k ++ ":" ++ stringify v) ++ rest
  = String dquote (escape k ++ String dquote (String ":" (stringify v ++ rest))).
Proof.
  rewrite append_assoc, quote_append. reflexivity.
Qed.

Lemma parse_members_more
  (fuel : nat) (k s r : string) (v : json) :
  parse_value fuel s = Some (v, String "," r) ->
  parse_members (S fuel)
    (String dquote (escape k ++ String dquote (String ":" s)))
  = match parse_members fuel r with
    | Some (m, rest) => Some ((k, v) :: m, rest)
    | None => None
    end.
Proof.
  intros H. cbn [parse_members skip_ws]. cbn.
  rewrite parse_escape. cbn. rewrite H. reflexivity.
Qed.

Lemma parse_members_last
  (fuel : nat) (k s r : string) (v : json) :
  parse_value fuel s = Some (v, String "}" r) ->
  parse_members (S fuel)
    (String dquote (escape k ++ String dquote (String ":" s)))
  = Some ([(k, v)], r).
Proof.
  intros H. cbn [parse_members skip_ws]. cbn.
  rewrite parse_escape. cbn. rewrite H. reflexivity.
Qed.

Lemma parse_members_text (kv : string * json) (m : list (string * json)) :
  Forall (fun kv => reads_back (snd kv)) (kv :: m) ->
  forall (fuel : nat) (rest : string),
    (members_weight (kv :: m) <= fuel)%nat ->
    parse_members fuel
      (String.concat "," (stringify_members (kv :: m)) ++ String "}" rest)
    = Some (kv :: m, rest).
Proof.
  unfold members_weight, stringify_members.
  revert kv. induction m as [|kv' m IH]; intros [k v] HF fuel rest Hfuel;
    inversion HF as [|? ? Hv HF']; subst; cbn [snd] in Hv;
    destruct fuel as [|fuel]; simpl in Hfuel; try lia.
  - cbn [map String.concat]. rewrite member_text.
    apply parse_members_last. apply Hv; [lia | apply ends_number_brace].
  - cbn [map]. rewrite concat_cons, !append_assoc, quote_append.
    cbn [append].
    rewrite (parse_members_more fuel k _ _ v)
      by (apply Hv; [lia | apply ends_number_comma]).
    pose proof (IH kv' HF' fuel rest) as IHm. cbn [map append] in IHm.
    rewrite IHm by (destruct kv'; simpl in *; lia). reflexivity.
Qed.

Lemma number_head_char (c : ascii) :
  c = "-"%char \/ is_digit c = true ->
  is_json_space c = false /\ Ascii.eqb c "]" = false.
Proof.
  intros [->|H]; [split; reflexivity|].
  each_code_unit c;
    try discriminate H; split; reflexivity.
Qed.

(** The text of a value starts with a character that is neither white space
    nor a closing bracket. *)
Lemma stringify_head (j : json) :
  exists c s,
    stringify j = String c s
    /\ is_json_space c = false
    /\ Ascii.eqb c "]" = false.
Proof.
  destruct j as [|[|]|n|s|l|m]; cbn [stringify];
    try (do 2 eexists; repeat split; reflexivity).
  destruct (String_of_number_head n) as [c [s [E Hc]]].
  exists c, s. split; [exact E | apply number_head_char, Hc].
Qed.

Lemma parse_value_string (fuel : nat) (s : string) :
  parse_value (S fuel) (String dquote s)
  = match parse_string_body s with
    | Some (str, rest) => Some (JString str, rest)
    | None => None
    end.
Proof. reflexivity. Qed.

Lemma parse_value_array (fuel : nat) (c : ascii) (s : string) :
  is_json_space c = false ->
  Ascii.eqb c "]" = false ->
  parse_value (S fuel) (String "[" (String c s))
  = match parse_elements fuel (String c s) with
    | Some (l, rest) => Some (JArray l, rest)
    | None => None
    end.
Proof.
  intros Hs Hc. cbn [parse_value skip_ws]. cbn. rewrite Hs, Hc. reflexivity.
Qed.

Lemma parse_value_object (fuel : nat) (s : string) :
  parse_value (S fuel) (String "{" (String dquote s))
  = match parse_members fuel (String dquote s) with
    | Some (m, rest) => Some (JObject m, rest)
    | None => None
    end.
Proof. reflexivity. Qed.

Lemma concat_head (c : ascii) (s : string) (t : list string) :
  exists s', String.concat "," (String c s :: t) = String c s'.
Proof. destruct t; cbn; eauto. Qed.

(** Every value is read back from its text. *)
Lemma stringify_reads_back (j : json) : reads_back j.
Proof.
  induction j as [|b|n|s|l IH|m IH] using json_nested_ind;
    intros fuel rest Hfuel Hrest;
    (destruct fuel as [|fuel]; [cbn [weight] in Hfuel; lia|]).
  - reflexivity.
  - destruct b; reflexivity.
  - destruct (String_of_number_head n) as [c [s [E Hc]]].
    cbn [stringify]. rewrite E. cbn [append].
    rewrite (parse_value_number fuel c _ Hc).
    change (String c (s ++ rest)) with (String c s ++ rest). rewrite <- E.
    apply parse_number_String_of_number. exact Hrest.
  - cbn [stringify]. rewrite quote_append, parse_value_string, parse_escape.
    reflexivity.
  - cbn [stringify]. cbn [append]. rewrite append_assoc. cbn [append].
    destruct l as [|x l]; [reflexivity|].
    pose proof (parse_elements_text x l IH fuel rest) as Hl.
    cbn [map] in *.
    destruct (stringify_head x) as [c [s [E [Hs Hc]]]].
    rewrite E in *.
    destruct (concat_head c s (map stringify l)) as [s' E'].
    rewrite E' in *. cbn [append] in *.
    rewrite (parse_value_array fuel c _ Hs Hc), Hl; trivial.
    cbn [weight] in Hfuel. cbn [map] in Hfuel. lia.
  - destruct m as [|[k v] m]; [reflexivity|].
    pose proof (parse_members_text (k, v) m IH fuel rest) as Hm.
    assert (exists s', String.concat "," (stringify_members ((k, v) :: m))
                       = String dquote s') as [s' E'].
    { unfold stringify_members, quote. cbn [map append]. apply concat_head. }
    cbn [stringify].
    change (String.concat "," (map _ ((k, v) :: m)))
      with (String.concat "," (stringify_members ((k, v) :: m))).
    cbn [append]. rewrite append_assoc. rewrite E' in *. cbn [append] in *.
    rewrite parse_value_object, Hm; trivial.
    cbn [weight] in Hfuel. unfold members_weight. lia.
Qed.

(** *** Fuel *)

Lemma sum_le_concat_length
  (A : Type) (w : A -> nat) (f : A -> string) (l : list A) :
  Forall (fun a => (w a <= String.length (f a))%nat) l ->
  (list_sum (map (fun a => S (w a)) l)
   <= String.length (String.concat "," (map f l)) + 1)%nat.
Proof.
  induction l as [|a l IH]; intros H; [simpl; lia|].
  inversion H as [|? ? Ha Hl]; subst. specialize (IH Hl).
  destruct l as [|b l].
  - simpl. lia.
  - cbn [map] in *. rewrite concat_cons, !length_append.
    remember (String.concat "," (f b :: map f l)) as text.
    cbn [list_sum fold_right] in *. simpl String.length. lia.
Qed.

Lemma quote_length (s : string) : (2 <= String.length (quote s))%nat.
Proof. unfold quote. cbn [String.length]. rewrite length_append. simpl. lia. Qed.

(** The length of the text bounds the fuel that reading it back takes. *)
Lemma weight_le_length (j : json) : (weight j <= String.length (stringify j))%nat.
Proof.
  induction j as [|b|n|s|l IH|m IH] using json_nested_ind.
  - simpl. lia.
  - destruct b; simpl; lia.
  - destruct (String_of_number_head n) as [c [s [E _]]].
    cbn [weight stringify]. rewrite E. simpl. lia.
  - cbn [weight stringify]. pose proof (quote_length s). lia.
  - cbn [weight stringify]. rewrite !length_append.
    pose proof (sum_le_concat_length json weight stringify l IH).
    simpl String.length. lia.
  - cbn [weight stringify]. rewrite !length_append.
    pose proof (sum_le_concat_length (string * json)
                  (fun kv => weight (snd kv))
                  (fun kv => let (k, v) := kv in quote k ++ ":" ++ stringify v)
                  m) as H.
    rewrite (map_ext (fun kv : string * json => let (_, v) := kv in S (weight v))
                     (fun kv => S (weight (snd kv))))
      by (intros [k v]; reflexivity).
    change (String.length "{") with 1%nat.
    change (String.length "}") with 1%nat.
    assert (Forall (fun a : string * json =>
                      (weight (snd a)
                       <= String.length
                            (let (k, v) := a in quote k ++ ":" ++ stringify v))%nat) m)
      as Hm.
    { eapply Forall_impl; [|exact IH]. intros [k v] Hv. cbn [snd] in *.
      rewrite !length_append. lia. }
    specialize (H Hm). lia.
Qed.

(** [JSON.parse(JSON.stringify(v))] is [v]. *)
Lemma JSON_parse_stringify (j : json) : JSON_parse (stringify j) = Some j.
Proof.
  unfold JSON_parse.
  rewrite <- (append_empty_r (stringify j)) at 2.
  rewrite (stringify_reads_back j _ EmptyString).
  - reflexivity.
  - pose proof (weight_le_length j). lia.
  - apply ends_number_empty.
Qed.

(** *** Tasks *)

Lemma property_in (k : string) (m : list (string * json)) (v : json) :
  NoDup (map fst m) ->
  property k m = Some v <-> In (k, v) m.
Proof.
  revert v. induction m as [|[k' v'] m IH]; intros v Hnd; cbn [property].
  - split; [discriminate | intros []].
  - inversion Hnd as [|? ? Hk Hm]; subst.
    pose proof (fun v => IH v Hm) as IH'. clear IH. rename IH' into IH.
    destruct (property k m) as [w|] eqn:E.
    + assert (In (k, w) m) as Hw by (apply IH; reflexivity).
      split.
      * intros [= <-]. right. exact Hw.
      * intros [[= -> ->]|Hin].
        -- exfalso. apply Hk. apply (in_map fst) in Hw. exact Hw.
        -- apply IH. exact Hin.
    + destruct (String.eqb_spec k' k) as [->|Hne].
      * split.
        -- intros [= <-]. left. reflexivity.
        -- intros [[= ->]|Hin]; [reflexivity|].
           apply IH in Hin. discriminate.
      * split; [discriminate|].
        intros [[= -> ->]|Hin]; [contradiction|].
        apply IH in Hin. discriminate.
Qed.

(** Reading a property does not depend on the order of the members. *)
Lemma property_permutation (k : string) (m m' : list (string * json)) :
  NoDup (map fst m) -> Permutation m m' ->
  property k m' = property k m.
Proof.
  intros Hnd Hp.
  assert (NoDup (map fst m')) as Hnd'
    by (eapply Permutation_NoDup; [apply Permutation_map, Hp | exact Hnd]).
  destruct (property k m) as [v|] eqn:E.
  - apply property_in; trivial. eapply Permutation_in; [exact Hp|].
    apply property_in; trivial.
  - destruct (property k m') as [v'|] eqn:E'; trivial.
    apply property_in in E'; trivial.
    apply Permutation_sym in Hp. eapply Permutation_in in E'; [|exact Hp].
    apply property_in in E'; trivial. congruence.
Qed.

Lemma todo_members_keys (t : Todo) : NoDup (map fst (todo_members t)).
Proof.
  unfold todo_members. destruct (Todo.description t); cbn;
    repeat (constructor; [cbn; intuition discriminate|]); constructor.
Qed.

Lemma todo_of_to_json (t : Todo) : todo_of_json (todo_to_json t) = Some t.
Proof. destruct t as [i ti [d|] c ca ua]; reflexivity. Qed.

(** A task is read from its members in whatever order they are listed. *)
Lemma todo_of_json_members (t : Todo) (m : list (string * json)) :
  Permutation (todo_members t) m -> todo_of_json (JObject m) = Some t.
Proof.
  intros Hp. rewrite <- (todo_of_to_json t).
  unfold todo_to_json, todo_of_json.
  rewrite !(fun k => property_permutation k _ _ (todo_members_keys t) Hp).
  reflexivity.
Qed.

Lemma todos_of_list_members (l : list Todo) (ms : list (list (string * json))) :
  Forall2 (fun t m => Permutation (todo_members t) m) l ms ->
  todos_of_list (map JObject ms) = Some l.
Proof.
  induction 1 as [|t m l ms Hp _ IH]; cbn [map todos_of_list]; trivial.
  rewrite (todo_of_json_members t m Hp), IH. reflexivity.
Qed.

Lemma todos_of_to_json (l : list Todo) : todos_of_json (todos_to_json l) = Some l.
Proof.
  unfold todos_to_json, todos_of_json.
  induction l as [|t l IH]; cbn [map todos_of_list]; trivial.
  rewrite todo_of_to_json, IH. reflexivity.
Qed.

Lemma load_stringify (j : json) (l : list Todo) :
  todos_of_json j = Some l ->
  load (Some (stringify j)) = Some l.
Proof.
  intros H. unfold load.
  destruct (stringify_head j) as [c [s [E _]]].
  rewrite JSON_parse_stringify, E. exact H.
Qed.

(** *** Storage *)

(** C8: the text that the persist effect writes for a collection is loaded
    back as that collection, task by task and field by field; on the next
    mount the page holds the collection again and, once its own persist
    effect has run, the slot holds the same text.  The order in which an
    object lists its properties plays no part. *)
Theorem saved_collection_is_restored (l : list Todo) (storage : Storage) :
  load (save true l storage) = Some l
  /\ (forall accepted1 accepted2,
        todos (fst (mount accepted1 accepted2 (save true l storage))) = l)
  /\ (forall accepted1,
        snd (mount accepted1 true (save true l storage)) = save true l storage)
  /\ (forall ms,
        Forall2 (fun t m => Permutation (todo_members t) m) l ms ->
        load (Some (stringify (JArray (map JObject ms)))) = Some l).
Proof.
  assert (load (save true l storage) = Some l) as Hload
    by (apply load_stringify, todos_of_to_json).
  split; [exact Hload|]. split; [|split].
  - intros a1 a2. unfold mount. rewrite Hload. reflexivity.
  - intros a1. unfold mount. rewrite Hload. reflexivity.
  - intros ms Hms. apply load_stringify.
    cbn [todos_of_json]. apply todos_of_list_members. exact Hms.
Qed.

(** * Further properties of the page *)

(** ** Blank titles *)

Lemma trimStart_empty (s : string) :
  trimStart s = EmptyString <-> all_white_space s = true.
Proof.
  induction s as [|c s IH]; cbn [trimStart all_white_space].
  - split; reflexivity.
  - destruct (is_white_space c); cbn [andb]; [exact IH|].
    split; discriminate.
Qed.

Lemma trimEnd_empty (s : string) :
  trimEnd s = EmptyString <-> all_white_space s = true.
Proof.
  induction s as [|c s IH]; cbn [trimEnd all_white_space].
  - split; reflexivity.
  - destruct (trimEnd s) as [|d r] eqn:E.
    + destruct (is_white_space c); cbn [andb].
      * split; intros _; [apply IH|]; reflexivity.
      * split; discriminate.
    + split; [discriminate|].
      intros H. apply andb_true_iff in H. destruct H as [_ H].
      apply IH in H. discriminate.
Qed.

Lemma trimStart_white (s : string) :
  all_white_space (trimStart s) = true -> trimStart s = EmptyString.
Proof.
  intros H. pose proof (trimStart_head s) as Hh.
  destruct (trimStart s) as [|c r]; trivial.
  cbn in *. rewrite Hh in H. discriminate.
Qed.

(** [trim] answers the empty string exactly for the strings made of white
    space only. *)
Lemma trim_empty (s : string) :
  trim s = EmptyString <-> all_white_space s = true.
Proof.
  unfold trim. rewrite trimEnd_empty. split; intros H.
  - apply trimStart_empty, trimStart_white, H.
  - apply trimStart_empty in H. rewrite H. reflexivity.
Qed.

(** X1: the submit handlers turn a title down exactly when it is made of
    white space only (the empty title included): [create] then returns the
    state it was given, and otherwise makes the collection one task longer;
    [update], with a task being edited, then returns the state it was
    given, and otherwise closes the modal and ends the edit. *)
Theorem title_rejected_iff_blank (now : Z) (st : State) :
  (all_white_space (title st) = true -> create now st = st /\ update now st = st)
  /\ (all_white_space (title st) = false ->
      length (todos (create now st)) = S (length (todos st))
      /\ forall e, editing st = Some e ->
                   modalOpen (update now st) = false
                   /\ editing (update now st) = None).
Proof.
  split; intros H.
  - apply trim_empty in H. split; [apply create_rejected | apply update_rejected];
      exact H.
  - assert (trim (title st) <> EmptyString) as Ht.
    { intros E. apply trim_empty in E. congruence. }
    split.
    + rewrite (create_accepted now st Ht). reflexivity.
    + intros e He. unfold update. rewrite He.
      apply truthy_true in Ht. rewrite Ht. split; reflexivity.
Qed.

(** ** Editing without a change *)

Lemma trimStart_fixed (s : string) :
  starts_with_white_space s = false -> trimStart s = s.
Proof. destruct s as [|c s]; cbn; intros H; [|rewrite H]; reflexivity. Qed.

Lemma trimEnd_fixed (s : string) :
  ends_with_white_space s = false -> trimEnd s = s.
Proof.
  induction s as [|c s IH]; intros H; cbn [trimEnd]; trivial.
  destruct s as [|d s].
  - cbn in *. rewrite H. reflexivity.
  - rewrite IH by exact H. reflexivity.
Qed.

(** Trimming twice is trimming once. *)
Lemma trim_idempotent (s : string) : trim (trim s) = trim s.
Proof.
  unfold trim at 1.
  rewrite trimStart_fixed by (apply trimEnd_head, trimStart_head).
  apply trimEnd_fixed, trimEnd_last.
Qed.

Lemma new_todo_kept_by_form (now : Z) (s d : string) :
  trim s <> EmptyString -> kept_by_form (new_todo now (trim s) d).
Proof.
  intros H. split; [exact H|]. split; [apply trim_idempotent|].
  exists (trim d). split; [reflexivity | apply trim_idempotent].
Qed.

Lemma updated_todo_kept_by_form (now : Z) (e : Todo) (s d : string) :
  trim s <> EmptyString -> kept_by_form (updated_todo now e (trim s) d).
Proof.
  intros H. split; [exact H|]. split; [apply trim_idempotent|].
  exists (trim d). split; [reflexivity | apply trim_idempotent].
Qed.

(** X2: opening a task that the form stored and submitting the form as it
    was preloaded changes nothing but [updatedAt]: the title and the
    description are written back as they were. *)
Theorem edit_without_change_keeps_text
  (now : Z) (st : State) (t : Todo) (l1 l2 : list Todo) :
  todos st = (l1 ++ t :: l2)%list ->
  (forall x, In x (l1 ++ l2)%list -> Todo.id x <> Todo.id t) ->
  kept_by_form t ->
  todos (update now (openEdit t st))
  = (l1 ++ Todo.mk (Todo.id t) (Todo.title t) (Todo.description t)
                   (Todo.completed t) (Todo.createdAt t) now :: l2)%list.
Proof.
  intros Hl Hother [Hne [Htitle [d [Hd Htrim]]]].
  assert (trim (title (openEdit t st)) <> EmptyString) as Hacc
    by (cbn [openEdit title]; rewrite Htitle; exact Hne).
  rewrite (update_accepted now (openEdit t st) t eq_refl Hacc).
  cbn [openEdit todos title description]. rewrite Hl.
  rewrite (map_one_id (fun _ => _) (Todo.id t) l1 l2 t eq_refl Hother).
  unfold updated_todo. rewrite Htitle, Hd. cbn [or_empty]. rewrite Htrim.
  reflexivity.
Qed.

Lemma edit_without_change_keeps_text_witness :
  todos (update 9 (openEdit (new_todo 5 "a" EmptyString) one_task))
  = ([] ++ Todo.mk (Todo.id (new_todo 5 "a" EmptyString))
                   (Todo.title (new_todo 5 "a" EmptyString))
                   (Todo.description (new_todo 5 "a" EmptyString))
                   (Todo.completed (new_todo 5 "a" EmptyString))
                   (Todo.createdAt (new_todo 5 "a" EmptyString)) 9 :: [])%list.
Proof.
  apply (edit_without_change_keeps_text 9 one_task
           (new_todo 5 "a" EmptyString) [] []).
  - reflexivity.
  - intros x [].
  - split; [vm_compute; discriminate|]. split; [reflexivity|].
    exists EmptyString. split; reflexivity.
Defined.

(** ** The add flow *)

(** X3: pressing the add button, typing a title that is not blank and a
    description, and submitting puts the new task in front of the
    collection, whatever the form or the edit held before; the modal is
    closed, the form is empty and no task is being edited. *)
Theorem add_flow_creates_task (now : Z) (st : State) (s d : string) :
  trim s <> EmptyString ->
  submit now (setDescription d (setTitle s (openAdd st)))
  = {| todos := new_todo now (trim s) d :: todos st;
       search := search st; filter := filter st; editing := None;
       title := EmptyString; description := EmptyString;
       modalOpen := false |}.
Proof.
  intros H. unfold submit. cbn [editing setDescription setTitle openAdd].
  rewrite create_accepted by exact H. reflexivity.
Qed.

Lemma add_flow_creates_task_witness :
  submit 9 (setDescription " tomorrow " (setTitle " call " (openAdd editing_one_task)))
  = {| todos := new_todo 9 (trim " call ") " tomorrow " :: todos editing_one_task;
       search := search editing_one_task; filter := filter editing_one_task;
       editing := None;
       title := EmptyString; description := EmptyString;
       modalOpen := false |}.
Proof.
  apply (add_flow_creates_task 9 editing_one_task " call " " tomorrow ").
  vm_compute. discriminate.
Defined.

(** ** What editing and completing never do *)

(** X4: [update] and [toggle] keep the ids of the collection as they are, one
    by one and in order: they never add, drop, reorder or renumber a task. *)
Theorem update_and_toggle_keep_ids
  (now : Z) (clock : nat -> Z) (i : string) (st : State) :
  ids (todos (update now st)) = ids (todos st)
  /\ ids (todos (toggle clock i st)) = ids (todos st)
  /\ length (todos (update now st)) = length (todos st)
  /\ length (todos (toggle clock i st)) = length (todos st).
Proof.
  assert (ids (todos (update now st)) = ids (todos st)) as Hu.
  { unfold update. destruct (editing st) as [e|]; trivial.
    destruct (negb (truthy (trim (title st)))); trivial.
    cbn [todos]. apply (map_by_id_ids (fun _ => _)).
    intros x Hx. rewrite Hx. reflexivity. }
  assert (ids (todos (toggle clock i st)) = ids (todos st)) as Ht
    by apply toggle_from_ids.
  repeat split; trivial.
  - rewrite <- (length_map Todo.id), <- (length_map Todo.id (todos st)).
    exact (f_equal (@length string) Hu).
  - rewrite <- (length_map Todo.id), <- (length_map Todo.id (todos st)).
    exact (f_equal (@length string) Ht).
Qed.

(** ** Creation undone *)

(** X5: deleting the task that [create] has just added gives the collection
    back as it was, provided its id was new to the collection. *)
Theorem remove_undoes_create (now : Z) (st : State) :
  trim (title st) <> EmptyString ->
  ~ In (String_of_number now) (ids (todos st)) ->
  todos (remove true (String_of_number now) (create now st)) = todos st.
Proof.
  intros H Hfresh. rewrite (create_accepted now st H).
  cbn [remove negb todos List.filter new_todo Todo.id].
  rewrite String.eqb_refl. cbn [negb].
  apply filter_other_ids. intros x Hx E. apply Hfresh.
  unfold ids. rewrite <- E. apply in_map. exact Hx.
Qed.

Lemma remove_undoes_create_witness :
  todos (remove true (String_of_number 6)
           (create 6 (setTitle "b" (openAdd one_task))))
  = todos (setTitle "b" (openAdd one_task)).
Proof.
  apply (remove_undoes_create 6 (setTitle "b" (openAdd one_task))).
  - vm_compute. discriminate.
  - vm_compute. intros [H|[]]. discriminate H.
Defined.

(** ** Stored text *)

Lemma step_keeps_form (st : State) (ev : Event) :
  Forall kept_by_form (todos st) -> Forall kept_by_form (todos (step st ev)).
Proof.
  intros H. destruct ev; cbn [step]; trivial.
  - unfold create. destruct (truthy (trim (title st))) eqn:E; trivial.
    cbn [negb todos]. constructor; trivial.
    apply new_todo_kept_by_form, truthy_true, E.
  - unfold update. destruct (editing st) as [e|]; trivial.
    destruct (truthy (trim (title st))) eqn:E; trivial.
    cbn [negb todos]. apply Forall_map. eapply Forall_impl; [|exact H].
    intros x Hx. destruct (String.eqb (Todo.id x) _); trivial.
    apply updated_todo_kept_by_form, truthy_true, E.
  - destruct confirmed; trivial. cbn [remove negb todos].
    apply Forall_forall. intros x Hx. apply filter_In in Hx.
    rewrite Forall_forall in H. apply H, Hx.
  - cbn [toggle todos]. revert H. generalize 0%nat.
    induction (todos st) as [|x l IH]; intros k H; cbn [toggle_from]; trivial.
    inversion H as [|? ? Hx Hl]; subst. constructor; [|apply IH, Hl].
    destruct (String.eqb (Todo.id x) id); trivial.
Qed.

(** X6: in every state that a run of the handlers reaches from the initial
    state, every task has a title that is not empty and has no white space at
    its ends, and a description that is present and has none either. *)
Theorem stored_text_is_kept_by_form (evs : list Event) (t : Todo) :
  In t (todos (run evs initial)) -> kept_by_form t.
Proof.
  assert (forall st, Forall kept_by_form (todos st) ->
                     Forall kept_by_form (todos (run evs st))) as Hrun.
  { induction evs as [|ev evs IH]; intros st H; trivial.
    apply (IH (step st ev)), step_keeps_form, H. }
  intros Hin. specialize (Hrun initial (Forall_nil _)).
  rewrite Forall_forall in Hrun. apply Hrun, Hin.
Qed.

Lemma stored_text_is_kept_by_form_witness :
  kept_by_form (new_todo 5 "a" EmptyString).
Proof.
  apply (stored_text_is_kept_by_form [EvOpenAdd; EvSetTitle "a"; EvCreate 5]).
  left. reflexivity.
Defined.

(** ** The two tabs *)

Lemma filter_split_permutation (c : Todo -> bool) (l : list Todo) :
  Permutation (List.filter (fun t => negb (c t)) l ++ List.filter c l)%list l.
Proof.
  induction l as [|x l IH]; cbn [List.filter]; [constructor|].
  destruct (c x); cbn [negb].
  - apply Permutation_sym, Permutation_cons_app, Permutation_sym, IH.
  - cbn [app]. constructor. exact IH.
Qed.

Lemma shown_blank (f : Filter) (t : Todo) :
  shown f EmptyString t = status_matches f t.
Proof. unfold shown, status_matches. destruct f, (Todo.completed t); reflexivity. Qed.

(** X7: no task is listed under both tabs, whatever the search text; with a
    search text that is blank the two tabs together list every task of the
    collection, each one once. *)
Theorem tabs_split_collection (st : State) :
  (forall t, ~ (In t (filtered (setFilter F_todos st))
                /\ In t (filtered (setFilter F_completed st))))
  /\ (all_white_space (search st) = true ->
      Permutation (filtered (setFilter F_todos st)
                   ++ filtered (setFilter F_completed st))%list
                  (todos st)).
Proof.
  unfold filtered. cbn [setFilter filter search todos]. split.
  - intros t [H1 H2]. apply filter_In in H1, H2.
    destruct H1 as [_ H1], H2 as [_ H2]. unfold shown in H1, H2.
    cbn [is_todos is_completed andb] in H1, H2.
    destruct (Todo.completed t); discriminate.
  - intros H. apply trim_empty in H. rewrite H. cbn [toLowerCase].
    rewrite (filter_ext _ _ (shown_blank F_todos)),
            (filter_ext _ _ (shown_blank F_completed)).
    apply (filter_split_permutation Todo.completed).
Qed.

(** ** Searching *)

Lemma toLowerCase_append (a b : string) :
  toLowerCase (a ++ b) = toLowerCase a ++ toLowerCase b.
Proof. induction a as [|c a IH]; cbn; [|rewrite IH]; reflexivity. Qed.

Lemma same_letter_lower (c d : ascii) :
  same_letter c d = true -> lower_char c = lower_char d.
Proof.
  unfold same_letter. intros H.
  apply orb_true_iff in H. destruct H as [H|H];
    [apply orb_true_iff in H; destruct H as [H|H]|].
  - apply Ascii.eqb_eq in H. subst d. reflexivity.
  - apply andb_true_iff in H. destruct H as [Hc Hd]. apply N.eqb_eq in Hd.
    assert (d = ascii_of_N (N_of_ascii c + 32)) as ->
      by (rewrite <- Hd, ascii_N_embedding; reflexivity).
    each_code_unit c; try discriminate Hc; reflexivity.
  - apply andb_true_iff in H. destruct H as [Hd Hc]. apply N.eqb_eq in Hc.
    assert (c = ascii_of_N (N_of_ascii d + 32)) as ->
      by (rewrite <- Hc, ascii_N_embedding; reflexivity).
    each_code_unit d; try discriminate Hd; reflexivity.
Qed.

Lemma same_text_lower (x y : string) :
  same_text_ignoring_case x y = true -> toLowerCase x = toLowerCase y.
Proof.
  revert y. induction x as [|c x IH]; intros [|d y] H;
    cbn [same_text_ignoring_case] in H; try discriminate; trivial.
  apply andb_true_iff in H. destruct H as [Hc Hx].
  cbn [toLowerCase]. rewrite (same_letter_lower c d Hc), (IH y Hx). reflexivity.
Qed.

(** X8, for text of code units below U+0100 (ASCII and Latin-1), the strings
    of this model: a task of the tab is listed whenever its title, a space
    and its description contain a text that differs from the trimmed search
    text in the case of its letters only; so a task is found by any part of
    its title or description, typed in capitals or small letters and with
    any white space around it. *)
Theorem search_finds_text_in_any_case (st : State) (t : Todo) (a x b : string) :
  In t (todos st) ->
  Todo.completed t = is_completed (filter st) ->
  haystack t = a ++ x ++ b ->
  same_text_ignoring_case x (trim (search st)) = true ->
  In t (filtered st).
Proof.
  intros Hin Hc Hhay Hx. unfold filtered. apply filter_In. split; trivial.
  rewrite shown_as_specified. apply andb_true_iff. split.
  - unfold status_matches. rewrite Hc. destruct (filter st); reflexivity.
  - unfold contains_ignoring_case. apply includes_spec.
    exists (toLowerCase a), (toLowerCase b).
    rewrite Hhay, !toLowerCase_append, (same_text_lower _ _ Hx). reflexivity.
Qed.

Lemma search_finds_text_in_any_case_witness :
  In buy_milk (filtered (example_page F_todos "  BUY mILK ")).
Proof.
  apply (search_finds_text_in_any_case (example_page F_todos "  BUY mILK ")
           buy_milk EmptyString "Buy milk" " ").
  - left. reflexivity.
  - reflexivity.
  - reflexivity.
  - reflexivity.
Defined.

(** ** The done button *)

Lemma toggle_from_one_id
  (k : nat) (clock : nat -> Z) (l1 l2 : list Todo) (t : Todo) :
  (forall x, In x (l1 ++ l2)%list -> Todo.id x <> Todo.id t) ->
  toggle_from k clock (Todo.id t) (l1 ++ t :: l2)%list
  = (l1 ++ toggled_todo (clock (k + length l1)%nat) t :: l2)%list.
Proof.
  revert k. induction l1 as [|x l1 IH]; intros k H; cbn [app toggle_from].
  - rewrite String.eqb_refl, Nat.add_0_r.
    rewrite toggle_from_other_ids; trivial.
  - assert (Todo.id x <> Todo.id t) as Hx by (apply H; left; reflexivity).
    apply String.eqb_neq in Hx. rewrite Hx, IH.
    + cbn [length]. rewrite Nat.add_succ_r. reflexivity.
    + intros y Hy. apply H. right. exact Hy.
Qed.

Lemma shown_toggled (f : Filter) (q : string) (n : Z) (t : Todo) :
  shown f q t = true ->
  shown f q (toggled_todo n t) = false
  /\ shown (other_tab f) q (toggled_todo n t) = true.
Proof.
  unfold shown. cbn [toggled_todo Todo.completed Todo.title Todo.description].
  destruct f, (Todo.completed t); cbn; intros H; try discriminate; auto.
Qed.

(** X9: pressing the done (or undo) button of a listed task whose id no
    other task has takes that task, and no other, off the tab and puts it,
    in its place and with its flag negated, on the other tab. *)
Theorem done_moves_task_to_other_tab
  (clock : nat -> Z) (st : State) (t : Todo) (l1 l2 : list Todo) :
  todos st = (l1 ++ t :: l2)%list ->
  (forall x, In x (l1 ++ l2)%list -> Todo.id x <> Todo.id t) ->
  In t (filtered st) ->
  filtered st
  = (filtered (setTodos l1 st) ++ t :: filtered (setTodos l2 st))%list
  /\ filtered (toggle clock (Todo.id t) st)
     = (filtered (setTodos l1 st) ++ filtered (setTodos l2 st))%list
  /\ filtered (setFilter (other_tab (filter st)) (toggle clock (Todo.id t) st))
     = (filtered (setFilter (other_tab (filter st)) (setTodos l1 st))
        ++ toggled_todo (clock (length l1)) t
        :: filtered (setFilter (other_tab (filter st)) (setTodos l2 st)))%list.
Proof.
  intros Hl Hother Hin.
  assert (shown (filter st) (toLowerCase (trim (search st))) t = true) as Ht
    by (unfold filtered in Hin; apply filter_In in Hin; tauto).
  destruct (shown_toggled _ _ (clock (length l1)) t Ht) as [Hoff Hon].
  unfold filtered.
  cbn [toggle setFilter setTodos todos search filter].
  rewrite Hl, toggle_from_one_id by exact Hother.
  rewrite !filter_app. cbn [List.filter Nat.add].
  rewrite Ht, Hoff, Hon. repeat split.
Qed.

Lemma done_moves_task_to_other_tab_witness :
  filtered (example_page F_todos EmptyString)
  = (filtered (setTodos [] (example_page F_todos EmptyString))
     ++ buy_milk :: filtered (setTodos [pay_rent] (example_page F_todos EmptyString)))%list
  /\ filtered (toggle (at_time 9) (Todo.id buy_milk) (example_page F_todos EmptyString))
     = (filtered (setTodos [] (example_page F_todos EmptyString))
        ++ filtered (setTodos [pay_rent] (example_page F_todos EmptyString)))%list
  /\ filtered (setFilter (other_tab (filter (example_page F_todos EmptyString)))
                 (toggle (at_time 9) (Todo.id buy_milk)
                    (example_page F_todos EmptyString)))
     = (filtered (setFilter (other_tab (filter (example_page F_todos EmptyString)))
                    (setTodos [] (example_page F_todos EmptyString)))
        ++ toggled_todo (at_time 9 (length (@nil Todo))) buy_milk
        :: filtered (setFilter (other_tab (filter (example_page F_todos EmptyString)))
                       (setTodos [pay_rent] (example_page F_todos EmptyString))))%list.
Proof.
  apply (done_moves_task_to_other_tab (at_time 9)
           (example_page F_todos EmptyString) buy_milk [] [pay_rent]).
  - reflexivity.
  - intros x [<-|[]]. vm_compute. discriminate.
  - left. reflexivity.
Defined.

(** ** The delete button *)

Lemma filter_drops_one (p : Todo -> bool) (l : list Todo) (t : Todo) :
  In t l -> p t = false -> (length (List.filter p l) < length l)%nat.
Proof.
  induction l as [|x l IH]; [intros []|];
    intros [->|Hin] Hp; cbn [List.filter length].
  - rewrite Hp. pose proof (filter_length_le p l). lia.
  - specialize (IH Hin Hp). destruct (p x); cbn [length]; lia.
Qed.

Lemma filter_drops_exactly_one (l : list Todo) (t : Todo) :
  NoDup (ids l) -> In t l ->
  S (length (List.filter (fun x => negb (String.eqb (Todo.id x) (Todo.id t))) l))
  = length l.
Proof.
  induction l as [|x l IH]; [intros _ []|];
    intros Hnd [->|Hin]; cbn [List.filter length];
    inversion Hnd as [|? ? Hx Hl]; subst.
  - rewrite String.eqb_refl. cbn [negb]. rewrite filter_other_ids; trivial.
    intros y Hy E. apply Hx. unfold ids. rewrite <- E. apply in_map, Hy.
  - destruct (String.eqb_spec (Todo.id x) (Todo.id t)) as [E|E]; cbn [negb length].
    + exfalso. apply Hx. unfold ids. rewrite E. apply in_map, Hin.
    + rewrite (IH Hl Hin). reflexivity.
Qed.

(** X10: a confirmed press of the delete button of a row always deletes: the
    task of the row is in the collection, afterwards no task has its id, the
    collection is shorter, by exactly one when the ids are pairwise distinct,
    and every task of another id is still there. *)
Theorem delete_button_removes_row (st st' : State) (k : nat) :
  act st (ClickDelete k true) = Some st' ->
  exists t,
    row_task st k = Some t
    /\ In t (todos st)
    /\ (forall x, In x (todos st') -> Todo.id x <> Todo.id t)
    /\ (length (todos st') < length (todos st))%nat
    /\ (NoDup (ids (todos st)) -> S (length (todos st')) = length (todos st))
    /\ (forall x, In x (todos st) -> Todo.id x <> Todo.id t -> In x (todos st')).
Proof.
  cbn [act]. destruct (row_task st k) as [t|] eqn:Hrow; [|discriminate].
  intros [= <-]. exists t.
  assert (In t (todos st)) as Hin.
  { unfold row_task in Hrow. apply nth_error_In in Hrow.
    unfold filtered in Hrow. apply filter_In in Hrow. tauto. }
  cbn [remove negb todos]. repeat split; trivial.
  - intros x Hx. apply filter_in_other_ids in Hx. tauto.
  - apply (filter_drops_one _ _ t Hin). rewrite String.eqb_refl. reflexivity.
  - intros Hnd. apply filter_drops_exactly_one; trivial.
  - intros x Hx Hne. apply filter_in_other_ids. tauto.
Qed.

Lemma delete_button_removes_row_witness :
  exists t,
    row_task one_task 0 = Some t
    /\ In t (todos one_task)
    /\ (forall x, In x (todos (remove true "5" one_task)) -> Todo.id x <> Todo.id t)
    /\ (length (todos (remove true "5" one_task)) < length (todos one_task))%nat
    /\ (NoDup (ids (todos one_task)) ->
        S (length (todos (remove true "5" one_task))) = length (todos one_task))
    /\ (forall x, In x (todos one_task) -> Todo.id x <> Todo.id t ->
                  In x (todos (remove true "5" one_task))).
Proof.
  apply (delete_button_removes_row one_task (remove true "5" one_task) 0).
  reflexivity.
Defined.

(** ** States that the page reaches *)

Section PlayInvariant.
Variable Inv : State -> Prop.
Hypothesis act_keeps :
  forall st a st', Inv st -> act st a = Some st' -> Inv st'.

Lemma play_keeps (acts : list Action) :
  forall st st', Inv st -> play acts st = Some st' -> Inv st'.
Proof.
  induction acts as [|a acts IH]; intros st st' H; cbn [play].
  - intros [= <-]. exact H.
  - destruct (act st a) as [st1|] eqn:E; [|discriminate].
    apply IH. apply (act_keeps st a st1 H E).
Qed.
End PlayInvariant.

Lemma when_modal_some (st st1 st' : State) :
  when_modal st st1 = Some st' -> modalOpen st = true /\ st' = st1.
Proof.
  unfold when_modal. destruct (modalOpen st); [|discriminate].
  intros [= <-]. split; reflexivity.
Qed.

Lemma row_task_in (st : State) (k : nat) (t : Todo) :
  row_task st k = Some t -> In t (todos st).
Proof.
  unfold row_task, filtered. intros H. apply nth_error_In in H.
  apply filter_In in H. tauto.
Qed.

Lemma act_keeps_edit_in_modal (st : State) (a : Action) (st' : State) :
  (modalOpen st = false -> editing st = None) ->
  act st a = Some st' ->
  modalOpen st' = false -> editing st' = None.
Proof.
  intros Inv. destruct a; cbn [act];
    try (destruct (row_task st row) as [t|]; [|discriminate]);
    try (intros H; apply when_modal_some in H; destruct H as [_ ->]);
    try (intros [= <-]); trivial; try discriminate.
  - destruct confirmed; exact Inv.
  - unfold submit. destruct (editing st) as [e|] eqn:He.
    + unfold update. rewrite He.
      destruct (negb (truthy (trim (title st))));
        [rewrite He; exact Inv | intros _; reflexivity].
    + unfold create.
      destruct (negb (truthy (trim (title st))));
        [rewrite He; exact Inv | intros _; exact He].
Qed.

(** X11: in every state that the controls of the page reach from the initial
    state, a task is being edited only while the modal is open: the submit
    button runs [update] only on a snapshot taken since the modal was last
    opened, and a closed modal holds no snapshot. *)
Theorem closed_modal_holds_no_edit (acts : list Action) (st : State) :
  play acts initial = Some st ->
  modalOpen st = false -> editing st = None.
Proof.
  intros H.
  apply (play_keeps (fun st => modalOpen st = false -> editing st = None)
           act_keeps_edit_in_modal acts initial st); trivial.
Qed.

Lemma closed_modal_holds_no_edit_witness :
  editing (backdrop (openEdit (new_todo 5 "a" EmptyString)
             (create 5 (setTitle "a" (openAdd initial))))) = None.
Proof.
  apply (closed_modal_holds_no_edit
           [ClickAdd; TypeTitle "a"; ClickSubmit 5; ClickEdit 0; ClickBackdrop]);
    reflexivity.
Defined.

Lemma act_keeps_ids_of_creation (st : State) (a : Action) (st' : State) :
  ids_of_creation st -> act st a = Some st' -> ids_of_creation st'.
Proof.
  intros [Hall Hedit]. destruct a; cbn [act];
    try (destruct (row_task st row) as [t|] eqn:Hrow; [|discriminate]);
    try (intros H; apply when_modal_some in H; destruct H as [_ ->]);
    try (intros [= <-]); try (split; [exact Hall|]; cbn; trivial; discriminate).
  - split; [exact Hall|]. cbn. intros e [= <-].
    apply Hall, (row_task_in st row), Hrow.
  - destruct confirmed; [|split; trivial]. split; [|exact Hedit].
    cbn [remove negb todos]. intros x Hx. apply filter_In in Hx. apply Hall, Hx.
  - split; [|exact Hedit]. cbn [toggle todos]. generalize 0%nat.
    induction (todos st) as [|x l IH]; intros n y; cbn [toggle_from]; [intros []|].
    intros [<-|Hy].
    + destruct (String.eqb (Todo.id x) (Todo.id t));
        [unfold id_of_creation; cbn|]; apply Hall; left; reflexivity.
    + apply (IH (fun z Hz => Hall z (or_intror Hz)) (S n) y Hy).
  - unfold submit. destruct (editing st) as [e|] eqn:He.
    + unfold update. rewrite He.
      destruct (negb (truthy (trim (title st)))).
      { split; [exact Hall|]. intros e0 H0. apply Hedit. congruence. }
      split; [|cbn; discriminate]. cbn [todos]. intros y Hy.
      apply in_map_iff in Hy. destruct Hy as [x [<- Hx]].
      destruct (String.eqb (Todo.id x) _); [|apply Hall, Hx].
      unfold id_of_creation. cbn. apply (Hedit e eq_refl).
    + unfold create.
      destruct (negb (truthy (trim (title st)))).
      { split; [exact Hall|]. intros e0 H0. congruence. }
      split; [|cbn; rewrite He; discriminate]. cbn [todos].
      intros y [<-|Hy]; [reflexivity | apply Hall, Hy].
Qed.

(** X12: in every state that the controls of the page reach from the initial
    state, the id of every task is the decimal rendering of its [createdAt];
    and so [update] leaves the [createdAt] of every task as it is, also when
    the snapshot is stale or its id is shared. *)
Theorem id_renders_creation_time (acts : list Action) (st : State) :
  play acts initial = Some st ->
  (forall t, In t (todos st) -> Todo.id t = String_of_number (Todo.createdAt t))
  /\ (forall now, map Todo.createdAt (todos (update now st))
                  = map Todo.createdAt (todos st)).
Proof.
  intros H.
  assert (ids_of_creation st) as [Hall Hedit].
  { apply (play_keeps ids_of_creation act_keeps_ids_of_creation acts initial st);
      trivial.
    split; [intros t [] | intros e; discriminate]. }
  split; [exact Hall|].
  intros now. unfold update. destruct (editing st) as [e|] eqn:He; trivial.
  destruct (negb (truthy (trim (title st)))); trivial.
  cbn [todos]. rewrite map_map. apply map_ext_in. intros x Hx.
  destruct (String.eqb_spec (Todo.id x)
              (Todo.id (updated_todo now e (trim (title st)) (description st))))
    as [E|E]; trivial.
  cbn in *. apply String_of_number_inj.
  rewrite <- (Hedit e eq_refl), <- (Hall x Hx). congruence.
Qed.

Lemma id_renders_creation_time_witness :
  (forall t, In t (todos (toggle (at_time 6) "5" one_task)) ->
             Todo.id t = String_of_number (Todo.createdAt t))
  /\ (forall now, map Todo.createdAt (todos (update now (toggle (at_time 6) "5" one_task)))
                  = map Todo.createdAt (todos (toggle (at_time 6) "5" one_task))).
Proof.
  apply (id_renders_creation_time
           [ClickAdd; TypeTitle "a"; ClickSubmit 5; ClickDone 0 (at_time 6)]).
  reflexivity.
Defined.

(** ** The slot of local storage *)

Lemma load_save (l : list Todo) (storage : Storage) :
  load (save true l storage) = Some l.
Proof. apply load_stringify, todos_of_to_json. Qed.

Lemma act_without_setTodos (st : State) (a : Action) (st' : State) :
  act st a = Some st' -> sets_todos st a = false -> todos st' = todos st.
Proof.
  destruct a; cbn [act sets_todos];
    try (destruct (row_task st row) as [t|]; [|discriminate]);
    try (intros H; apply when_modal_some in H; destruct H as [Hm ->]);
    try (intros [= <-]); trivial; try discriminate.
  - intros ->. reflexivity.
  - rewrite Hm. cbn [andb]. intros Ht. apply truthy_false in Ht.
    unfold submit. destruct (editing st);
      [rewrite update_rejected | rewrite create_rejected]; trivial.
Qed.

(** X13: on a slot that is absent, empty or holds the text this page wrote
    for a collection, from the mount on and while every write to local
    storage is accepted, the slot holds the text of the collection that the
    page shows, whatever the user does; a restart at any moment so brings
    that collection back. *)
Theorem slot_mirrors_collection
  (storage : Storage) (steps : list (Action * bool)) (w : State * Storage) :
  own_slot storage ->
  Forall (fun s => snd s = true) steps ->
  page_run steps (mount true true storage) = Some w ->
  snd w = Some (stringify (todos_to_json (todos (fst w))))
  /\ load (snd w) = Some (todos (fst w))
  /\ forall accepted1 accepted2,
       todos (fst (mount accepted1 accepted2 (snd w))) = todos (fst w).
Proof.
  intros _ Hacc Hrun.
  assert (snd w = Some (stringify (todos_to_json (todos (fst w))))) as Hw.
  { assert (snd (mount true true storage)
            = Some (stringify (todos_to_json
                                 (todos (fst (mount true true storage))))))
      as H0 by (unfold mount; destruct (load storage); reflexivity).
    revert Hacc Hrun H0. generalize (mount true true storage).
    induction steps as [|[a b] steps IH]; intros [st sl] Hacc Hrun H0;
      cbn [page_run] in Hrun.
    - injection Hrun as <-. exact H0.
    - inversion Hacc as [|? ? Hb Hrest]; subst. cbn [snd] in Hb. subst b.
      destruct (page_step (st, sl) (a, true)) as [w1|] eqn:E; [|discriminate].
      apply (IH w1 Hrest Hrun). cbn [page_step] in E.
      destruct (act st a) as [st'|] eqn:Ea; [|discriminate].
      injection E as <-. cbn [fst snd] in *.
      destruct (sets_todos st a) eqn:Hs; [reflexivity|].
      rewrite (act_without_setTodos st a st' Ea Hs). exact H0. }
  assert (load (snd w) = Some (todos (fst w))) as Hm
    by (rewrite Hw; apply (load_save _ None)).
  repeat split; trivial.
  intros a1 a2. unfold mount. rewrite Hm. reflexivity.
Qed.

Lemma slot_mirrors_collection_witness :
  let st := openAdd (toggle (at_time 7) "5" one_task) in
  let slot := Some (stringify (todos_to_json (todos st))) in
  snd (st, slot) = Some (stringify (todos_to_json (todos (fst (st, slot)))))
  /\ load (snd (st, slot)) = Some (todos (fst (st, slot)))
  /\ forall accepted1 accepted2,
       todos (fst (mount accepted1 accepted2 (snd (st, slot))))
       = todos (fst (st, slot)).
Proof.
  intros st slot.
  apply (slot_mirrors_collection
           (Some (stringify (todos_to_json (todos one_task))))
           [(ClickDone 0 (at_time 7), true); (ClickAdd, true)]
           (st, slot)).
  - right. right. exists (todos one_task). reflexivity.
  - repeat constructor.
  - vm_compute. reflexivity.
Defined.

(** X14: on a slot that is absent, empty or holds the text this page wrote
    for a collection, one mount with accepted writes leaves the page and the
    slot in a state that every further mount reproduces.  An absent or empty
    slot gives the empty collection and is filled with the text of the empty
    array; a slot with the text of a collection gives that collection and
    keeps its text. *)
Theorem mount_is_stable (storage : Storage) :
  own_slot storage ->
  mount true true (snd (mount true true storage)) = mount true true storage
  /\ (storage = None \/ storage = Some EmptyString ->
      mount true true storage = (initial, Some (stringify (JArray []))))
  /\ (forall l, storage = Some (stringify (todos_to_json l)) ->
                mount true true storage = (setTodos l initial, storage)).
Proof.
  intros _. split; [|split].
  - unfold mount at 2 3. destruct (load storage) as [l|] eqn:E; cbn [fst snd].
    + unfold mount. rewrite (load_save l). reflexivity.
    + unfold mount. rewrite (load_save []). reflexivity.
  - intros [->| ->]; reflexivity.
  - intros l ->. unfold mount.
    rewrite (load_save l None : load (Some _) = _). reflexivity.
Qed.

Lemma mount_is_stable_witness :
  mount true true (snd (mount true true None)) = mount true true None
  /\ (@None string = None \/ @None string = Some EmptyString ->
      mount true true None = (initial, Some (stringify (JArray []))))
  /\ (forall l, None = Some (stringify (todos_to_json l)) ->
                mount true true None = (setTodos l initial, None)).
Proof.
  apply (mount_is_stable None). left. reflexivity.
Defined.

(** ** Text left in a dismissed form *)

Lemma same_page_refl (st : State) : same_page st st.
Proof. repeat split. Qed.

Lemma same_page_filtered (st1 st2 : State) :
  same_page st1 st2 -> filtered st1 = filtered st2.
Proof.
  intros [Ht [Hs [Hf _]]]. unfold filtered. rewrite Ht, Hs, Hf. reflexivity.
Qed.

Lemma same_page_open (st1 st2 : State) :
  same_page st1 st2 -> modalOpen st1 = true -> st1 = st2.
Proof.
  destruct st1, st2. unfold same_page. cbn.
  intros [-> [-> [-> [-> [-> H]]]]] Hm. destruct (H Hm) as [-> ->]. reflexivity.
Qed.

Lemma act_same_page (st1 st2 : State) (a : Action) :
  same_page st1 st2 -> same_page_option (act st1 a) (act st2 a).
Proof.
  intros H. pose proof (same_page_filtered st1 st2 H) as Hf.
  pose proof (same_page_open st1 st2 H) as Hopen.
  destruct H as [Ht [Hs [Hfi [He [Hm Hform]]]]].
  destruct a; cbn [act]; unfold row_task; rewrite <- ?Hf;
    try (destruct (nth_error (filtered st1) row) as [t|]; [|exact I]);
    unfold when_modal; rewrite <- ?Hm;
    try (destruct (modalOpen st1) eqn:Hopen1;
         [rewrite <- (Hopen eq_refl); apply same_page_refl | exact I]);
    cbn [same_page_option].
  all: try (destruct confirmed; cbn [remove negb]).
  all: repeat split; cbn in *; trivial; try (apply Hform; assumption);
    rewrite Ht; reflexivity.
Qed.

Lemma play_same_page (acts : list Action) :
  forall st1 st2,
    same_page st1 st2 -> same_page_option (play acts st1) (play acts st2).
Proof.
  induction acts as [|a acts IH]; intros st1 st2 H; cbn [play].
  - exact H.
  - pose proof (act_same_page st1 st2 a H) as Ha.
    destruct (act st1 a) as [s1|], (act st2 a) as [s2|]; cbn in Ha;
      try contradiction; [apply IH, Ha | exact I].
Qed.

(** X15: the text left in the form when the modal is dismissed by a click on
    the backdrop, which does not clear it, is never used: closing by the
    backdrop and closing by the cancel button, which clears it, are followed
    by the same pages under every sequence of actions. *)
Theorem dismissed_text_is_never_used (acts : list Action) (st : State) :
  same_page_option (play acts (backdrop st)) (play acts (cancel st)).
Proof. apply play_same_page. repeat split. discriminate. discriminate. Qed.

(** ** The rows of a tab *)

(** X16: every row listed under the tab of open tasks has the button
    [Done] and is not marked completed, every row listed under the tab of
    completed tasks has the button [Undo] and is marked completed; the note
    that nothing was found is shown exactly when the table has no row. *)
Theorem rows_agree_with_tab (st : State) :
  (forall r, In r (rows st) ->
             row_completed r = is_completed (filter st)
             /\ row_button r = if is_completed (filter st) then "Undo" else "Done")
  /\ (shows_no_todos_found st = true <-> rows st = []).
Proof.
  split.
  - intros r Hr. unfold rows in Hr. apply in_map_iff in Hr.
    destruct Hr as [t [<- Ht]]. unfold filtered in Ht. apply filter_In in Ht.
    destruct Ht as [_ Ht]. unfold shown in Ht. cbn [render_row row_completed row_button].
    destruct (filter st), (Todo.completed t); cbn in *;
      try discriminate; split; reflexivity.
  - unfold shows_no_todos_found, rows.
    destruct (filtered st); cbn; split; congruence.
Qed.
